(** * las_colorize.py: a shallow embedding of the orchestrator

    Model of [src/point_cloud_colorize/las_colorize.py]: the pathlib
    operations it uses, the filesystem it queries, the [json.dumps] /
    quote-escaping / [str.format] construction of the PDAL pipeline text,
    a JSON reader for that text, the PDAL engine's validate / execute
    contract, and [process_files] as a trace-and-error monad. *)

From Stdlib Require Import String Ascii List Bool Arith Lia.
Import ListNotations.
Open Scope list_scope.
Open Scope string_scope.
Set Warnings "-register-all".

(* ------------------------------------------------------------------ *)
(** ** Characters and string helpers *)

Definition dq : ascii := "034"%char.        (* the double quote *)
Definition bs : ascii := "092"%char.        (* the backslash *)
Definition nl : ascii := "010"%char.        (* the newline *)

(** A one-character string. *)
Definition ch (c : ascii) : string := String c EmptyString.

Definition q : string := ch dq.

Definition code (c : ascii) : nat := nat_of_ascii c.

(** Python's [name[:i]] and [name[i:]]. *)
Fixpoint str_take (n : nat) (s : string) : string :=
  match n, s with
  | O, _ => EmptyString
  | S n', String c r => String c (str_take n' r)
  | S _, EmptyString => EmptyString
  end.

Fixpoint str_drop (n : nat) (s : string) : string :=
  match n, s with
  | O, _ => s
  | S n', String _ r => str_drop n' r
  | S _, EmptyString => EmptyString
  end.

(** Python's [str.rfind('.')], [None] standing for [-1]. *)
Fixpoint rfind_dot (s : string) : option nat :=
  match s with
  | EmptyString => None
  | String c r =>
      match rfind_dot r with
      | Some i => Some (S i)
      | None => if Ascii.eqb c "."%char then Some 0 else None
      end
  end.

(** [sep.join(l)]. *)
Fixpoint join (sep : string) (l : list string) : string :=
  match l with
  | [] => EmptyString
  | [x] => x
  | x :: r => x ++ sep ++ join sep r
  end.

(* ------------------------------------------------------------------ *)
(** ** pathlib.PurePosixPath *)

(** A path is its tuple of [parts]; an absolute path starts with the
    anchor part ["/"].  Two paths are equal iff their parts are (POSIX
    paths compare case-sensitively). *)
Definition path := list string.

Definition last_part (p : path) : option string :=
  match rev p with
  | [] => None
  | c :: _ => Some c
  end.

(** [Path.name]: the last part, or [''] when only the anchor (['/'] or
    ['//']) is left. *)
Definition name (p : path) : string :=
  match last_part p with
  | Some c => if String.eqb c "/" || String.eqb c "//" then EmptyString else c
  | None => EmptyString
  end.

(** The split of [Path.name] into [stem] and [suffix]:
<<
    i = name.rfind('.')
    if 0 < i < len(name) - 1: return name[:i], name[i:]
    else: return name, ''
>> *)
Definition split_ext (n : string) : string * string :=
  match rfind_dot n with
  | Some i =>
      if Nat.ltb 0 i && Nat.ltb i (String.length n - 1)
      then (str_take i n, str_drop i n)
      else (n, EmptyString)
  | None => (n, EmptyString)
  end.

Definition stem (p : path) : string := fst (split_ext (name p)).
Definition suffix (p : path) : string := snd (split_ext (name p)).

(** [p / s] for a string [s] holding no separator. *)
Definition join_path (p : path) (s : string) : path := (p ++ [s])%list.

(** [Path.as_posix()]: the anchor (['/'] or ['//']) followed by the other
    parts joined with ['/'], or ['.'] for the empty path. *)
Definition as_posix (p : path) : string :=
  match p with
  | [] => "."
  | c :: r => if String.eqb c "/" || String.eqb c "//" then c ++ join "/" r
              else join "/" p
  end.

(** [f.suffix == '.las' or f.suffix == '.laz'] *)
Definition is_las (p : path) : bool :=
  String.eqb (suffix p) ".las" || String.eqb (suffix p) ".laz".

(* ------------------------------------------------------------------ *)
(** ** The filesystem *)

Inductive kind := File | Dir.

(** A filesystem snapshot: its entries in the order the directory listing
    yields them.  A path absent from the list does not exist. *)
Definition fs := list (path * kind).

Definition kind_eqb (a b : kind) : bool :=
  match a, b with File, File | Dir, Dir => true | _, _ => false end.

Fixpoint path_eqb (a b : path) : bool :=
  match a, b with
  | [], [] => true
  | x :: a', y :: b' => String.eqb x y && path_eqb a' b'
  | _, _ => false
  end.

Definition exists_path (F : fs) (p : path) : bool :=
  existsb (fun e => path_eqb (fst e) p) F.

(** [Path.is_dir()]: false also for a path that does not exist. *)
Definition is_dir (F : fs) (p : path) : bool :=
  existsb (fun e => path_eqb (fst e) p && kind_eqb (snd e) Dir) F.

(** [Path.iterdir()]: [p / name] for every entry directly below [p]
    ([os.listdir] is read eagerly, before the loop body runs). *)
Definition iterdir (F : fs) (p : path) : list path :=
  map fst (filter (fun e => match e with
                            | (q', _) => match last_part q' with
                                         | Some n => path_eqb q' (p ++ [n])%list
                                         | None => false
                                         end
                            end) F).

(* ------------------------------------------------------------------ *)
(** ** json.dumps (default arguments: [ensure_ascii=True],
       separators [', '] and [': ']) *)

(** Characters are the code points 0..255. *)
Definition hex_digit (n : nat) : ascii :=
  ascii_of_nat (if Nat.ltb n 10 then 48 + n else 87 + n).

(** One character of [encode_basestring_ascii]: backslash and quote are
    escaped, printable ASCII is kept, [\b \f \n \r \t] get their short
    escapes, anything else becomes [\u00XX] (lower-case hex). *)
Definition escape_char (c : ascii) : string :=
  let n := code c in
  if Ascii.eqb c bs then ch bs ++ ch bs
  else if Ascii.eqb c dq then ch bs ++ ch dq
  else if Nat.leb 32 n && Nat.leb n 126 then ch c
  else if Nat.eqb n 8 then ch bs ++ "b"
  else if Nat.eqb n 12 then ch bs ++ "f"
  else if Nat.eqb n 10 then ch bs ++ "n"
  else if Nat.eqb n 13 then ch bs ++ "r"
  else if Nat.eqb n 9 then ch bs ++ "t"
  else ch bs ++ "u00" ++ ch (hex_digit (n / 16)) ++ ch (hex_digit (n mod 16)).

Fixpoint encode_body (s : string) : string :=
  match s with
  | EmptyString => EmptyString
  | String c r => escape_char c ++ encode_body r
  end.

Definition encode_str (s : string) : string := q ++ encode_body s ++ q.

(** A Python value of the parameter bundle: a [str], or a number ([int] or
    [float]) written as the literal its [repr] gives. *)
Inductive pyval :=
| PStr (s : string)
| PNum (lit : string).

Definition dumps_val (v : pyval) : string :=
  match v with
  | PStr s => encode_str s
  | PNum lit => lit
  end.

(** [json.dumps] of a [dict], keys in insertion order. *)
Definition json_dumps (d : list (string * pyval)) : string :=
  "{" ++ join ", " (map (fun kv => encode_str (fst kv) ++ ": " ++ dumps_val (snd kv)) d)
      ++ "}".

(** The caller's parameters of [run_pdal] / [process_files]. *)
Record params := {
  las_srs : string;
  wms_url : string;
  wms_layer : string;
  wms_srs : string;
  wms_version : string;
  wms_format : string;
  wms_pixel_size : pyval;
  wms_max_image_size : pyval
}.

(** The [pdalargs] dict of [run_pdal]. *)
Definition pdalargs (p : params) : list (string * pyval) :=
  [("wms_url", PStr (wms_url p));
   ("wms_layer", PStr (wms_layer p));
   ("wms_srs", PStr (wms_srs p));
   ("wms_version", PStr (wms_version p));
   ("wms_format", PStr (wms_format p));
   ("wms_pixel_size", wms_pixel_size p);
   ("wms_max_image_size", wms_max_image_size p);
   ("las_srs", PStr (las_srs p))].

(** [.replace('"', '\\"')] *)
Fixpoint replace_quote (s : string) : string :=
  match s with
  | EmptyString => EmptyString
  | String c r =>
      if Ascii.eqb c dq then String bs (String dq (replace_quote r))
      else String c (replace_quote r)
  end.

(** [PDAL_PIPELINE.format(input_file=..., directory=..., pdalargs=...,
    srs=..., output_file=...)]: the template with its [{{ }}] collapsed. *)
Definition PDAL_PIPELINE_format
    (input_file directory pdalargs_str srs output_file : string) : string :=
  "{" ++ ch nl ++
  "  " ++ q ++ "pipeline" ++ q ++ ":[" ++ ch nl ++
  "    {" ++ ch nl ++
  "      " ++ q ++ "type" ++ q ++ ": " ++ q ++ "readers.las" ++ q ++ "," ++ ch nl ++
  "      " ++ q ++ "filename" ++ q ++ ": " ++ q ++ input_file ++ q ++ ch nl ++
  "    }," ++ ch nl ++
  "    {" ++ ch nl ++
  "      " ++ q ++ "type" ++ q ++ ": " ++ q ++ "filters.python" ++ q ++ "," ++ ch nl ++
  "      " ++ q ++ "script" ++ q ++ ": " ++ q ++ directory ++ "/pdal_colorize.py" ++ q
        ++ "," ++ ch nl ++
  "      " ++ q ++ "function" ++ q ++ ": " ++ q ++ "las_colorize" ++ q ++ "," ++ ch nl ++
  "      " ++ q ++ "module" ++ q ++ ": " ++ q ++ "anything" ++ q ++ "," ++ ch nl ++
  "      " ++ q ++ "pdalargs" ++ q ++ ": " ++ q ++ pdalargs_str ++ q ++ ch nl ++
  "    }," ++ ch nl ++
  "    {" ++ ch nl ++
  "      " ++ q ++ "type" ++ q ++ ": " ++ q ++ "writers.las" ++ q ++ "," ++ ch nl ++
  "      " ++ q ++ "a_srs" ++ q ++ ": " ++ q ++ srs ++ q ++ "," ++ ch nl ++
  "      " ++ q ++ "filename" ++ q ++ ": " ++ q ++ output_file ++ q ++ ch nl ++
  "    }" ++ ch nl ++
  "  ]" ++ ch nl ++
  "}".

(** The pipeline text [run_pdal] hands to [pdal.Pipeline];
    [directory] is [Path(__file__).parent.as_posix()]. *)
Definition pipeline_json (directory : string) (input_path output_path : path)
    (p : params) : string :=
  let pdalargs_str := replace_quote (json_dumps (pdalargs p)) in
  PDAL_PIPELINE_format (as_posix input_path) directory pdalargs_str
    (las_srs p) (as_posix output_path).

(* ------------------------------------------------------------------ *)
(** ** Effects: a trace of engine calls and Python exceptions *)

(** [ValueError] is the spec's InvalidArgument; [RuntimeError], raised by
    PDAL's [validate] / [execute], is the spec's EngineError. *)
Inductive error :=
| ValueError (msg : string)
| RuntimeError (msg : string).

Inductive result (A : Type) :=
| Ok (a : A)
| Err (e : error).
Arguments Ok {A} a.
Arguments Err {A} e.

(** Observable events: a call of [run_pdal] (a task), and the engine's
    [validate] / [execute] on a pipeline text with their outcome
    ([Some msg] when the engine raised). *)
Inductive event :=
| RunPdal (input_path output_path : path)
| Validate (pipeline : string) (outcome : option string)
| Execute (pipeline : string) (outcome : option string).

Definition M (A : Type) : Type := list event -> list event * result A.

Definition ret {A} (a : A) : M A := fun tr => (tr, Ok a).

Definition bind {A B} (m : M A) (k : A -> M B) : M B :=
  fun tr => match m tr with
            | (tr', Ok a) => k a tr'
            | (tr', Err e) => (tr', Err e)
            end.

Notation "m ;; k" := (bind m (fun _ => k)) (at level 61, right associativity).

Definition raise {A} (e : error) : M A := fun tr => (tr, Err e).

Definition emit (e : event) : M unit := fun tr => ((tr ++ [e])%list, Ok tt).

(** The PDAL engine: whether [validate] / [execute] raise, with their
    message, may depend on everything that happened before. *)
Record engine := {
  eng_validate : list event -> string -> option string;
  eng_execute : list event -> string -> option string
}.

Definition validate (E : engine) (pj : string) : M unit :=
  fun tr => match eng_validate E tr pj with
            | None => ((tr ++ [Validate pj None])%list, Ok tt)
            | Some m => ((tr ++ [Validate pj (Some m)])%list, Err (RuntimeError m))
            end.

Definition execute (E : engine) (pj : string) : M unit :=
  fun tr => match eng_execute E tr pj with
            | None => ((tr ++ [Execute pj None])%list, Ok tt)
            | Some m => ((tr ++ [Execute pj (Some m)])%list, Err (RuntimeError m))
            end.

(** [for f in xs: body(f)] *)
Fixpoint for_each {A} (xs : list A) (body : A -> M unit) : M unit :=
  match xs with
  | [] => ret tt
  | x :: r => body x ;; for_each r body
  end.

(* ------------------------------------------------------------------ *)
(** ** run_pdal and process_files *)

Section Orchestrator.

(** [Path(__file__).parent.as_posix()] *)
Variable directory : string.

(** [run_pdal]: build the pipeline text, then
    [pipeline.validate(); pipeline.execute()]. *)
Definition run_pdal (E : engine) (input_path output_path : path) (p : params)
    : M unit :=
  let pj := pipeline_json directory input_path output_path p in
  emit (RunPdal input_path output_path) ;;
  validate E pj ;;
  execute E pj.

(** ['{}_color{}'.format(f.stem, f.suffix)] *)
Definition color_name (f : path) : string := stem f ++ "_color" ++ suffix f.

Definition msg_dir : string :=
  "Output path should be a directory if the input path is a directory.".

Definition msg_out : string :=
  "Specified output path not a LAS/LAZ file or existing directory.".

(** The body of [for f in input_path.iterdir(): ...]. *)
Definition loop_body (F : fs) (E : engine) (output_path : path) (p : params)
    (f : path) : M unit :=
  if is_las f then
    if is_dir F output_path then
      run_pdal E f (join_path output_path (color_name f)) p
    else raise (ValueError msg_dir)
  else ret tt.

(** [process_files] (the [verbose] printing is left out: it only writes
    to stdout). *)
Definition process_files (F : fs) (E : engine) (input_path output_path : path)
    (p : params) : M unit :=
  if is_dir F input_path then
    for_each (iterdir F input_path) (loop_body F E output_path p)
  else
    if is_las output_path then
      run_pdal E input_path output_path p
    else if is_dir F output_path then
      run_pdal E input_path (join_path output_path (color_name input_path)) p
    else raise (ValueError msg_out).

End Orchestrator.

(** A whole run starts from the empty trace. *)
Definition run (directory : string) (F : fs) (E : engine)
    (input_path output_path : path) (p : params) : list event * result unit :=
  process_files directory F E input_path output_path p [].

(** The tasks of a trace: the [(input, output)] of each [run_pdal] call. *)
Fixpoint tasks_of (tr : list event) : list (path * path) :=
  match tr with
  | [] => []
  | RunPdal i o :: r => (i, o) :: tasks_of r
  | _ :: r => tasks_of r
  end.

(** The tasks the directory loop goes through, in listing order. *)
Definition dir_tasks (F : fs) (input_path output_path : path) : list (path * path) :=
  map (fun f => (f, join_path output_path (color_name f)))
      (filter is_las (iterdir F input_path)).

(** The engine failure an event reports, if any. *)
Definition failure (ev : event) : option string :=
  match ev with
  | RunPdal _ _ => None
  | Validate _ o | Execute _ o => o
  end.

(* ------------------------------------------------------------------ *)
(** ** Reading JSON (RFC 8259), as the engine reads the pipeline text *)

Inductive json :=
| JNull
| JBool (b : bool)
| JNum (lit : string)
| JStr (s : string)
| JArr (l : list json)
| JObj (l : list (string * json)).

Definition is_ws (c : ascii) : bool :=
  let n := code c in Nat.eqb n 32 || Nat.eqb n 9 || Nat.eqb n 10 || Nat.eqb n 13.

Fixpoint skip_ws (s : string) : string :=
  match s with
  | String c r => if is_ws c then skip_ws r else s
  | EmptyString => s
  end.

Definition is_digit (c : ascii) : bool := Nat.leb 48 (code c) && Nat.leb (code c) 57.

Definition hex_val (c : ascii) : option nat :=
  let n := code c in
  if Nat.leb 48 n && Nat.leb n 57 then Some (n - 48)
  else if Nat.leb 97 n && Nat.leb n 102 then Some (n - 87)
  else if Nat.leb 65 n && Nat.leb n 70 then Some (n - 55)
  else None.

Definition cons_res (c : ascii) (o : option (string * string))
    : option (string * string) :=
  match o with
  | Some (v, r) => Some (String c v, r)
  | None => None
  end.

(** The character a one-letter escape [\e] stands for. *)
Definition short_escape (e : ascii) : option ascii :=
  match code e with
  | 34 => Some dq | 92 => Some bs | 47 => Some "/"%char
  | 98 => Some (ascii_of_nat 8) | 102 => Some (ascii_of_nat 12)
  | 110 => Some (ascii_of_nat 10) | 114 => Some (ascii_of_nat 13)
  | 116 => Some (ascii_of_nat 9)
  | _ => None
  end.

(** The body of a string literal, after its opening quote: the decoded
    string and what follows the closing quote.  Raw control characters are
    refused; a [\uXXXX] beyond the model's characters 0..255 is refused. *)
Fixpoint lex_str_body (s : string) : option (string * string) :=
  match s with
  | EmptyString => None
  | String c r =>
      if Ascii.eqb c dq then Some (EmptyString, r)
      else if Ascii.eqb c bs then
        match r with
        | EmptyString => None
        | String e r' =>
            match short_escape e with
            | Some d => cons_res d (lex_str_body r')
            | None =>
                if Ascii.eqb e "u"%char then
                  match r' with
                  | String h1 (String h2 (String h3 (String h4 r''))) =>
                      match hex_val h1, hex_val h2, hex_val h3, hex_val h4 with
                      | Some a, Some b, Some c', Some d =>
                          let n := ((a * 16 + b) * 16 + c') * 16 + d in
                          if Nat.ltb n 256 then cons_res (ascii_of_nat n) (lex_str_body r'')
                          else None
                      | _, _, _, _ => None
                      end
                  | _ => None
                  end
                else None
            end
        end
      else if Nat.ltb (code c) 32 then None
      else cons_res c (lex_str_body r)
  end.

(** Numbers: the longest run of number characters, checked against
    [-? (0 | [1-9][0-9]* ) (. [0-9]+)? ([eE] [+-]? [0-9]+)?]. *)
Definition num_char (c : ascii) : bool :=
  is_digit c || Ascii.eqb c "+"%char || Ascii.eqb c "-"%char
  || Ascii.eqb c "."%char || Ascii.eqb c "e"%char || Ascii.eqb c "E"%char.

Fixpoint munch_num (s : string) : string * string :=
  match s with
  | String c r =>
      if num_char c then let (a, b) := munch_num r in (String c a, b)
      else (EmptyString, s)
  | EmptyString => (EmptyString, EmptyString)
  end.

(** The number grammar as an automaton: 0 start, 1 after [-], 2 after a
    leading [0], 3 in the integer digits, 4 after [.], 5 in the fraction,
    6 after [e], 7 after the exponent sign, 8 in the exponent. *)
Definition num_step (st : nat) (c : ascii) : option nat :=
  let d := is_digit c in
  let zero := Ascii.eqb c "0"%char in
  let dot := Ascii.eqb c "."%char in
  let ex := Ascii.eqb c "e"%char || Ascii.eqb c "E"%char in
  let sg := Ascii.eqb c "+"%char || Ascii.eqb c "-"%char in
  match st with
  | 0 => if Ascii.eqb c "-"%char then Some 1 else if zero then Some 2
         else if d then Some 3 else None
  | 1 => if zero then Some 2 else if d then Some 3 else None
  | 2 => if dot then Some 4 else if ex then Some 6 else None
  | 3 => if d then Some 3 else if dot then Some 4 else if ex then Some 6 else None
  | 4 => if d then Some 5 else None
  | 5 => if d then Some 5 else if ex then Some 6 else None
  | 6 => if sg then Some 7 else if d then Some 8 else None
  | 7 => if d then Some 8 else None
  | 8 => if d then Some 8 else None
  | _ => None
  end.

Fixpoint num_run (st : nat) (s : string) : bool :=
  match s with
  | EmptyString => match st with 2 | 3 | 5 | 8 => true | _ => false end
  | String c r => match num_step st c with Some st' => num_run st' r | None => false end
  end.

Definition valid_number (lit : string) : bool := num_run 0 lit.

Definition lit_eq (s lit : string) : option string :=
  if String.eqb (str_take (String.length lit) s) lit
  then Some (str_drop (String.length lit) s) else None.

Fixpoint parse_value (fuel : nat) (s : string) : option (json * string) :=
  match fuel with
  | O => None
  | S f =>
    match skip_ws s with
    | EmptyString => None
    | String c r as s' =>
      if Ascii.eqb c "{"%char then
        match skip_ws r with
        | String c' r' =>
            if Ascii.eqb c' "}"%char then Some (JObj [], r')
            else match parse_members f r with
                 | Some (ms, r'') => Some (JObj ms, r'')
                 | None => None
                 end
        | EmptyString => None
        end
      else if Ascii.eqb c "["%char then
        match skip_ws r with
        | String c' r' =>
            if Ascii.eqb c' "]"%char then Some (JArr [], r')
            else match parse_elems f r with
                 | Some (vs, r'') => Some (JArr vs, r'')
                 | None => None
                 end
        | EmptyString => None
        end
      else if Ascii.eqb c dq then
        match lex_str_body r with
        | Some (v, r') => Some (JStr v, r')
        | None => None
        end
      else match lit_eq s' "true", lit_eq s' "false", lit_eq s' "null" with
        | Some r', _, _ => Some (JBool true, r')
        | _, Some r', _ => Some (JBool false, r')
        | _, _, Some r' => Some (JNull, r')
        | None, None, None =>
            let (lit, r') := munch_num s' in
            if valid_number lit then Some (JNum lit, r') else None
        end
    end
  end
with parse_members (fuel : nat) (s : string) : option (list (string * json) * string) :=
  match fuel with
  | O => None
  | S f =>
    match skip_ws s with
    | String c r =>
      if Ascii.eqb c dq then
        match lex_str_body r with
        | Some (k, r1) =>
          match skip_ws r1 with
          | String c1 r2 =>
            if Ascii.eqb c1 ":"%char then
              match parse_value f r2 with
              | Some (v, r3) =>
                match skip_ws r3 with
                | String c3 r4 =>
                  if Ascii.eqb c3 ","%char then
                    match parse_members f r4 with
                    | Some (ms, r5) => Some ((k, v) :: ms, r5)
                    | None => None
                    end
                  else if Ascii.eqb c3 "}"%char then Some ([(k, v)], r4)
                  else None
                | EmptyString => None
                end
              | None => None
              end
            else None
          | EmptyString => None
          end
        | None => None
        end
      else None
    | EmptyString => None
    end
  end
with parse_elems (fuel : nat) (s : string) : option (list json * string) :=
  match fuel with
  | O => None
  | S f =>
    match parse_value f s with
    | Some (v, r) =>
      match skip_ws r with
      | String c r' =>
        if Ascii.eqb c ","%char then
          match parse_elems f r' with
          | Some (vs, r'') => Some (v :: vs, r'')
          | None => None
          end
        else if Ascii.eqb c "]"%char then Some ([v], r')
        else None
      | EmptyString => None
      end
    | None => None
    end
  end.

(** A whole document: one value, then only whitespace.  Each nested call
    that takes no character is followed by one that does, so a fuel of
    twice the length bounds every parse. *)
Definition json_loads (s : string) : option json :=
  match parse_value (S (2 * String.length s)) s with
  | Some (v, r) => match skip_ws r with EmptyString => Some v | _ => None end
  | None => None
  end.

(* ------------------------------------------------------------------ *)
(** ** What the pipeline text is meant to carry *)

(** The JSON value of a bundle entry. *)
Definition jval (v : pyval) : json :=
  match v with
  | PStr s => JStr s
  | PNum lit => JNum lit
  end.

(** The eight fields as the caller passed them. *)
Definition bundle_json (p : params) : json :=
  JObj (map (fun kv => (fst kv, jval (snd kv))) (pdalargs p)).

Fixpoint assoc {A} (k : string) (l : list (string * A)) : option A :=
  match l with
  | [] => None
  | (k', v) :: r => if String.eqb k k' then Some v else assoc k r
  end.

(** The bundle a reader of the pipeline text gets back: the [pdalargs]
    string of the second stage, read as JSON in its turn. *)
Definition embedded_bundle (pj : string) : option json :=
  match json_loads pj with
  | Some (JObj top) =>
      match assoc "pipeline" top with
      | Some (JArr [_; JObj stage; _]) =>
          match assoc "pdalargs" stage with
          | Some (JStr a) => json_loads a
          | _ => None
          end
      | _ => None
      end
  | _ => None
  end.

(** Characters a string literal carries as they are: no quote, no
    backslash, no control character. *)
Definition plain_char (c : ascii) : bool :=
  negb (Ascii.eqb c dq) && negb (Ascii.eqb c bs) && Nat.leb 32 (code c).

Fixpoint plain (s : string) : bool :=
  match s with
  | EmptyString => true
  | String c r => plain_char c && plain r
  end.

(** The same, quotes allowed. *)
Fixpoint qplain (s : string) : bool :=
  match s with
  | EmptyString => true
  | String c r => negb (Ascii.eqb c bs) && Nat.leb 32 (code c) && qplain r
  end.

Definition safe_val (v : pyval) : bool :=
  match v with
  | PStr s => plain s
  | PNum lit => valid_number lit
  end.

(** String parameters with no quote, backslash or control character, and
    numbers written as JSON numbers. *)
Definition params_safe (p : params) : bool :=
  plain (las_srs p) && plain (wms_url p) && plain (wms_layer p) &&
  plain (wms_srs p) && plain (wms_version p) && plain (wms_format p) &&
  safe_val (wms_pixel_size p) && safe_val (wms_max_image_size p).

(** [json.dumps(d, ensure_ascii=False)] for such values: what the escaped
    bundle decodes to inside the pipeline text. *)
Definition raw_val (v : pyval) : string :=
  match v with
  | PStr s => q ++ s ++ q
  | PNum lit => lit
  end.

Definition raw_entry (kv : string * pyval) : string :=
  q ++ fst kv ++ q ++ ": " ++ raw_val (snd kv).

Definition raw_dumps (d : list (string * pyval)) : string :=
  "{" ++ join ", " (map raw_entry d) ++ "}".

(** One [key: value] entry of [json.dumps]. *)
Definition dumps_entry (kv : string * pyval) : string :=
  encode_str (fst kv) ++ ": " ++ dumps_val (snd kv).

(** Bundle values [json.loads] reads back: any string, and numbers
    written as JSON numbers. *)
Definition num_ok (v : pyval) : bool :=
  match v with
  | PStr _ => true
  | PNum lit => valid_number lit
  end.

Definition prepend (s : string) (o : option (string * string))
    : option (string * string) :=
  match o with
  | Some (v, r) => Some (s ++ v, r)
  | None => None
  end.

(** Text [s], quote-escaped and placed in a string literal, decodes to [raw]. *)
Definition layer_ok (s raw : string) : Prop :=
  forall r, lex_str_body (replace_quote s ++ r) = prepend raw (lex_str_body r).

(** Strings made of number characters only. *)
Fixpoint all_num (s : string) : bool :=
  match s with
  | EmptyString => true
  | String c r => num_char c && all_num r
  end.

(** The tree the pipeline template stands for: reader, Python filter and
    writer, with the five interpolated strings as they decode. *)
Definition stages_json (si d R srs so : string) : json :=
  JObj [("pipeline", JArr [
     JObj [("type", JStr "readers.las"); ("filename", JStr si)];
     JObj [("type", JStr "filters.python"); ("script", JStr (d ++ "/pdal_colorize.py"));
           ("function", JStr "las_colorize"); ("module", JStr "anything");
           ("pdalargs", JStr R)];
     JObj [("type", JStr "writers.las"); ("a_srs", JStr srs); ("filename", JStr so)]])].

(* ------------------------------------------------------------------ *)
(** ** process_files with its [verbose] printing *)

(** What a run shows: the engine events as before, and the lines
    [print] writes to stdout, in one interleaved trace. *)
Inductive vevent :=
| Engine (e : event)
| Stdout (line : string).

(** The engine events of such a trace. *)
Fixpoint erase (tr : list vevent) : list event :=
  match tr with
  | [] => []
  | Engine e :: r => e :: erase r
  | Stdout _ :: r => erase r
  end.

Definition MV (A : Type) : Type := list vevent -> list vevent * result A.

Definition vret {A} (a : A) : MV A := fun tr => (tr, Ok a).

Definition vbind {A B} (m : MV A) (k : A -> MV B) : MV B :=
  fun tr => match m tr with
            | (tr', Ok a) => k a tr'
            | (tr', Err e) => (tr', Err e)
            end.

Notation "m ;;; k" := (vbind m (fun _ => k)) (at level 61, right associativity).

Definition vraise {A} (e : error) : MV A := fun tr => (tr, Err e).

Definition vemit (e : event) : MV unit := fun tr => ((tr ++ [Engine e])%list, Ok tt).

(** [print(line)] *)
Definition print (line : string) : MV unit :=
  fun tr => ((tr ++ [Stdout line])%list, Ok tt).

(** The engine sees the engine events only. *)
Definition vvalidate (E : engine) (pj : string) : MV unit :=
  fun tr => match eng_validate E (erase tr) pj with
            | None => ((tr ++ [Engine (Validate pj None)])%list, Ok tt)
            | Some m => ((tr ++ [Engine (Validate pj (Some m))])%list, Err (RuntimeError m))
            end.

Definition vexecute (E : engine) (pj : string) : MV unit :=
  fun tr => match eng_execute E (erase tr) pj with
            | None => ((tr ++ [Engine (Execute pj None)])%list, Ok tt)
            | Some m => ((tr ++ [Engine (Execute pj (Some m))])%list, Err (RuntimeError m))
            end.

Fixpoint vfor_each {A} (xs : list A) (body : A -> MV unit) : MV unit :=
  match xs with
  | [] => vret tt
  | x :: r => body x ;;; vfor_each r body
  end.

(** [print('Colorizing {} ..'.format(f))]: [str] of a path is its
    [as_posix] on POSIX. *)
Definition msg_colorizing (f : path) : string := "Colorizing " ++ as_posix f ++ " ..".

(** [print('Saving at {}.'.format(out))] *)
Definition msg_saving (out : path) : string := "Saving at " ++ as_posix out ++ ".".

(** [if verbose: print(line)] *)
Definition say (verbose : bool) (line : string) : MV unit :=
  if verbose then print line else vret tt.

Section Verbose.

Variable directory : string.

Definition run_pdal_v (E : engine) (input_path output_path : path) (p : params)
    : MV unit :=
  let pj := pipeline_json directory input_path output_path p in
  vemit (RunPdal input_path output_path) ;;;
  vvalidate E pj ;;;
  vexecute E pj.

Definition loop_body_v (F : fs) (E : engine) (output_path : path) (p : params)
    (verbose : bool) (f : path) : MV unit :=
  if is_las f then
    if is_dir F output_path then
      let out := join_path output_path (color_name f) in
      say verbose (msg_colorizing f) ;;;
      say verbose (msg_saving out) ;;;
      run_pdal_v E f out p
    else vraise (ValueError msg_dir)
  else vret tt.

(** [process_files] line by line, [verbose] included. *)
Definition process_files_v (F : fs) (E : engine) (input_path output_path : path)
    (p : params) (verbose : bool) : MV unit :=
  if is_dir F input_path then
    vfor_each (iterdir F input_path) (loop_body_v F E output_path p verbose)
  else
    say verbose (msg_colorizing input_path) ;;;
    if is_las output_path then
      say verbose (msg_saving output_path) ;;;
      run_pdal_v E input_path output_path p
    else if is_dir F output_path then
      let out := join_path output_path (color_name input_path) in
      say verbose (msg_saving out) ;;;
      run_pdal_v E input_path out p
    else vraise (ValueError msg_out).

End Verbose.

(** The verbose trace of an engine-event trace: each task announced by its
    two lines. *)
Definition announce_ev (e : event) : list vevent :=
  match e with
  | RunPdal f o => [Stdout (msg_colorizing f); Stdout (msg_saving o); Engine e]
  | _ => [Engine e]
  end.

Definition announce (tr : list event) : list vevent := flat_map announce_ev tr.

(** The trace a run shows for its engine events: announced when
    [verbose], as they are otherwise. *)
Definition shown (verbose : bool) (tr : list event) : list vevent :=
  if verbose then announce tr else map Engine tr.

(** [mv] does what [m] does on the engine events, from any trace, and shows
    the new ones through [shown v]. *)
Definition sim (v : bool) (mv : MV unit) (m : M unit) : Prop :=
  forall vtr, exists new r,
    m (erase vtr) = ((erase vtr ++ new)%list, r) /\ mv vtr = ((vtr ++ shown v new)%list, r).

(* ------------------------------------------------------------------ *)
(** ** Path(str) *)

(** [s.split('/')] *)
Fixpoint split_slash (s : string) : list string :=
  match s with
  | EmptyString => [EmptyString]
  | String c r =>
      if Ascii.eqb c "/"%char then EmptyString :: split_slash r
      else match split_slash r with
           | x :: l => String c x :: l
           | [] => [ch c]
           end
  end.

(** [PurePosixPath(s)].parts (Python 3.12 [_parse_path]): the root is
    ['//'] for exactly two leading slashes and ['/'] for one or three and
    more; the other parts are the segments of [s.split('/')] that are
    neither [''] nor ['.']. *)
Definition path_of_string (s : string) : path :=
  let rel := filter (fun x => negb (String.eqb x "") && negb (String.eqb x "."))
                    (split_slash s) in
  if String.eqb (str_take 1 s) "/" then
    if negb (String.eqb (str_take 1 (str_drop 1 s)) "/")
       || String.eqb (str_take 1 (str_drop 2 s)) "/"
    then "/" :: rel
    else "//" :: rel
  else rel.

(* ------------------------------------------------------------------ *)
(** ** argument_parser and main *)

Module Args.

(** What [parser.parse_args()] collected from the command line for each
    option: its last value, or [None] when the option was not given; for
    [-V] whether it was given.  No option has a [type=], so every value
    is a [str]. *)
Record given := {
  input : option string;
  output : option string;
  las_srs : option string;
  wms_url : option string;
  wms_layer : option string;
  wms_srs : option string;
  wms_format : option string;
  wms_version : option string;
  wms_pixel_size : option string;
  wms_max_image_size : option string;
  verbose : bool
}.

(** The [Namespace] [parse_args] returns. *)
Record namespace := {
  ns_input : string;
  ns_output : string;
  ns_las_srs : string;
  ns_wms_url : string;
  ns_wms_layer : string;
  ns_wms_srs : string;
  ns_wms_format : string;
  ns_wms_version : string;
  ns_wms_pixel_size : pyval;
  ns_wms_max_image_size : pyval;
  ns_verbose : bool
}.

End Args.

Inductive parsed :=
| ArgError (msg : string)
| Parsed (ns : Args.namespace).

Definition str_default (v : option string) (default : string) : string :=
  match v with Some s => s | None => default end.

(** A given value is the [str] the user typed; the default is the
    [float] / [int] of the [add_argument] call. *)
Definition val_default (v : option string) (default : pyval) : pyval :=
  match v with Some s => PStr s | None => default end.

(** [argument_parser()]: the two required options are checked first
    ([parser.error] names the missing ones in the order they were added,
    and exits with status 2), then the defaults are filled in. *)
Definition argument_parser (a : Args.given) : parsed :=
  let missing := ((if Args.input a then [] else ["-i/--input"]) ++
                  (if Args.output a then [] else ["-o/--output"]))%list in
  match Args.input a, Args.output a with
  | Some i, Some o =>
      Parsed {|
        Args.ns_input := i;
        Args.ns_output := o;
        Args.ns_las_srs := str_default (Args.las_srs a) "EPSG:28992";
        Args.ns_wms_url := str_default (Args.wms_url a)
                             "https://geodata.nationaalgeoregister.nl/luchtfoto/rgb/wms?";
        Args.ns_wms_layer := str_default (Args.wms_layer a) "Actueel_ortho25";
        Args.ns_wms_srs := str_default (Args.wms_srs a) "EPSG:28992";
        Args.ns_wms_format := str_default (Args.wms_format a) "image/png";
        Args.ns_wms_version := str_default (Args.wms_version a) "1.3.0";
        Args.ns_wms_pixel_size := val_default (Args.wms_pixel_size a) (PNum "0.25");
        Args.ns_wms_max_image_size := val_default (Args.wms_max_image_size a) (PNum "1000");
        Args.ns_verbose := Args.verbose a |}
  | _, _ => ArgError ("the following arguments are required: " ++ join ", " missing)
  end.

(** The parameters [main] hands to [process_files]. *)
Definition main_params (ns : Args.namespace) : params := {|
  las_srs := Args.ns_las_srs ns;
  wms_url := Args.ns_wms_url ns;
  wms_layer := Args.ns_wms_layer ns;
  wms_srs := Args.ns_wms_srs ns;
  wms_version := Args.ns_wms_version ns;
  wms_format := Args.ns_wms_format ns;
  wms_pixel_size := Args.ns_wms_pixel_size ns;
  wms_max_image_size := Args.ns_wms_max_image_size ns |}.

(** How [main] ends: [SystemExit] from [parser.error], or the outcome of
    [process_files] (an exception escaping it ends the program). *)
Inductive outcome :=
| SystemExit (code : nat) (msg : string)
| Returned (r : result unit).

Definition main (directory : string) (F : fs) (E : engine) (a : Args.given)
    : list vevent * outcome :=
  match argument_parser a with
  | ArgError m => ([], SystemExit 2 m)
  | Parsed ns =>
      let (tr, r) := process_files_v directory F E
                       (path_of_string (Args.ns_input ns))
                       (path_of_string (Args.ns_output ns))
                       (main_params ns) (Args.ns_verbose ns) [] in
      (tr, Returned r)
  end.

(* ------------------------------------------------------------------ *)
(** ** Sample inputs *)

(** The command line's defaults ([-p] and [-m] keep their numeric
    defaults [0.25] and [1000]). *)
Definition default_params : params := {|
  las_srs := "EPSG:28992";
  wms_url := "https://geodata.nationaalgeoregister.nl/luchtfoto/rgb/wms?";
  wms_layer := "Actueel_ortho25";
  wms_srs := "EPSG:28992";
  wms_version := "1.3.0";
  wms_format := "image/png";
  wms_pixel_size := PNum "0.25";
  wms_max_image_size := PNum "1000" |}.

(** An engine under which every pipeline validates and executes. *)
Definition engine_ok : engine := {|
  eng_validate := fun _ _ => None;
  eng_execute := fun _ _ => None |}.

(** An engine that refuses to validate the second pipeline of a run. *)
Definition engine_fails_second : engine := {|
  eng_validate := fun tr _ =>
    if Nat.leb 2 (length (tasks_of tr)) then Some "readers.las: Unable to open stream"
    else None;
  eng_execute := fun _ _ => None |}.

(** The defaults with another WMS layer name. *)
Definition with_layer (layer : string) : params := {|
  las_srs := las_srs default_params;
  wms_url := wms_url default_params;
  wms_layer := layer;
  wms_srs := wms_srs default_params;
  wms_version := wms_version default_params;
  wms_format := wms_format default_params;
  wms_pixel_size := wms_pixel_size default_params;
  wms_max_image_size := wms_max_image_size default_params |}.

(** A layer name with a double quote in it, and one with a backslash
    (the two characters [\] and [b]). *)
Definition layer_quote : string := "Actueel" ++ q ++ "ortho25".
Definition layer_backslash : string := "luchtfoto" ++ ch bs ++ "beelden".

(** Where the package is installed, as [directory] of [run_pdal]. *)
Definition sample_dir : string := "/opt/pcc/point_cloud_colorize".

(** A data directory with two LAS/LAZ files among other entries, and an
    output directory. *)
Definition sample_fs : fs :=
  [(["data"], Dir); (["data"; "a.las"], File); (["data"; "notes.txt"], File);
   (["data"; "b.laz"], File); (["data"; "c.LAS"], File); (["data"; "sub"], Dir);
   (["data"; "sub"; "d.las"], File); (["out"], Dir)].

(** A directory of three LAS/LAZ files, and an output directory. *)
Definition sample_batch : fs :=
  [(["batch"], Dir); (["batch"; "a.las"], File); (["batch"; "b.laz"], File);
   (["batch"; "c.las"], File); (["out"], Dir)].

(** The command line [-i a.las -o b.las -p 0.5]. *)
Definition sample_args_p : Args.given := {|
  Args.input := Some "a.las"; Args.output := Some "b.las"; Args.las_srs := None;
  Args.wms_url := None; Args.wms_layer := None; Args.wms_srs := None;
  Args.wms_format := None; Args.wms_version := None;
  Args.wms_pixel_size := Some "0.5"; Args.wms_max_image_size := None;
  Args.verbose := false |}.

(* ================================================================== *)
(** * Lemmas *)

(** ** Strings and paths *)

Lemma length_app (a b : string) :
  String.length (a ++ b) = String.length a + String.length b.
Proof. induction a as [|c a IH]; simpl; auto. Qed.

Lemma app_assoc_str (a b c : string) : (a ++ b) ++ c = a ++ b ++ c.
Proof. induction a as [|x a IH]; simpl; congruence. Qed.

Lemma app_empty_str (a : string) : a ++ EmptyString = a.
Proof. induction a as [|x a IH]; simpl; congruence. Qed.

Lemma take_app (a b : string) : str_take (String.length a) (a ++ b) = a.
Proof. induction a as [|c a IH]; simpl; [destruct b|]; congruence. Qed.

Lemma drop_app (a b : string) : str_drop (String.length a) (a ++ b) = b.
Proof. induction a as [|c a IH]; simpl; auto. Qed.

Lemma take_drop (n : nat) (s : string) : str_take n s ++ str_drop n s = s.
Proof.
  revert s; induction n as [|n IH]; intros [|c s]; simpl; auto.
  now rewrite IH.
Qed.

Lemma rfind_dot_app (a b : string) :
  rfind_dot (a ++ b) =
  match rfind_dot b with
  | Some i => Some (String.length a + i)
  | None => rfind_dot a
  end.
Proof.
  induction a as [|c a IH]; simpl.
  - destruct (rfind_dot b); auto.
  - rewrite IH. destruct (rfind_dot b); auto.
Qed.

(** [stem + suffix == name] *)
Lemma split_ext_app (n : string) : fst (split_ext n) ++ snd (split_ext n) = n.
Proof.
  unfold split_ext.
  destruct (rfind_dot n) as [i|]; [destruct (_ && _)|]; simpl;
    auto using take_drop, app_empty_str.
Qed.

(** A name ending in [x ++ ".las"] (or [".laz"]) with [x] nonempty has
    that extension. *)
Lemma split_ext_las (x e : string) :
  (e = "las" \/ e = "laz") -> String.length x > 0 ->
  split_ext (x ++ "." ++ e) = (x, "." ++ e).
Proof.
  intros He Hx. unfold split_ext.
  rewrite rfind_dot_app.
  replace (rfind_dot ("." ++ e)) with (Some 0)
    by (destruct He; subst; reflexivity).
  rewrite length_app.
  replace (Nat.ltb 0 (String.length x + 0)) with true
    by (symmetry; apply Nat.ltb_lt; lia).
  replace (Nat.ltb (String.length x + 0)
            (String.length x + String.length ("." ++ e) - 1)) with true
    by (symmetry; apply Nat.ltb_lt; destruct He; subst; simpl; lia).
  simpl. rewrite Nat.add_0_r, take_app, drop_app. reflexivity.
Qed.

Lemma last_part_snoc (l : path) (x : string) : last_part (l ++ [x])%list = Some x.
Proof. unfold last_part. now rewrite rev_unit. Qed.

Lemma length_color_name (f : path) :
  String.length (color_name f) = String.length (name f) + 6.
Proof.
  unfold color_name, stem, suffix.
  rewrite <- (split_ext_app (name f)) at 3.
  rewrite !length_app. simpl. lia.
Qed.

Lemma name_join_color (out f : path) :
  name (join_path out (color_name f)) = color_name f.
Proof.
  unfold name, join_path. rewrite last_part_snoc.
  pose proof (length_color_name f) as L.
  destruct (String.eqb_spec (color_name f) "/") as [E|E];
    [rewrite E in L; simpl in L; lia|].
  destruct (String.eqb_spec (color_name f) "//") as [E'|E'];
    [rewrite E' in L; simpl in L; lia|].
  reflexivity.
Qed.

(** A derived output path never equals its input path. *)
Lemma join_color_neq (out f : path) : f <> join_path out (color_name f).
Proof.
  intros E.
  pose proof (name_join_color out f) as N. rewrite <- E in N.
  pose proof (length_color_name f) as L. rewrite N in L. lia.
Qed.

Lemma suffix_join_color (out f : path) :
  is_las f = true -> suffix (join_path out (color_name f)) = suffix f.
Proof.
  intros H. unfold suffix at 1. rewrite name_join_color.
  unfold is_las in H.
  assert (Hs : suffix f = "." ++ "las" \/ suffix f = "." ++ "laz").
  { apply orb_true_iff in H as [H|H]; apply String.eqb_eq in H; auto. }
  unfold color_name.
  destruct Hs as [Hs|Hs]; rewrite Hs, <- app_assoc_str, split_ext_las;
    simpl; auto; rewrite length_app; simpl; lia.
Qed.

Lemma is_las_join_color (out f : path) :
  is_las f = true -> is_las (join_path out (color_name f)) = true.
Proof.
  intros H. unfold is_las at 1. rewrite suffix_join_color; auto.
Qed.

(** ** Directory listings and derived names *)

Lemma length_take n s : String.length (str_take n s) = Nat.min n (String.length s).
Proof. revert s; induction n as [|n IH]; intros [|c s]; simpl; auto. Qed.

Lemma rfind_dot_lt s i : rfind_dot s = Some i -> i < String.length s.
Proof.
  revert i; induction s as [|c s IH]; intros i H; simpl in H; [discriminate|].
  destruct (rfind_dot s) as [j|] eqn:E.
  - injection H as <-. specialize (IH j eq_refl). simpl. lia.
  - destruct (Ascii.eqb c "."%char); [injection H as <-; simpl; lia|discriminate].
Qed.

(** A nonempty suffix comes with a nonempty stem. *)
Lemma split_ext_stem n :
  snd (split_ext n) <> EmptyString -> fst (split_ext n) <> EmptyString.
Proof.
  unfold split_ext. destruct (rfind_dot n) as [i|] eqn:E; [|simpl; congruence].
  destruct (Nat.ltb 0 i && Nat.ltb i (String.length n - 1)) eqn:C; simpl; [|congruence].
  intros _ H. apply andb_true_iff in C as [C1 C2]. apply Nat.ltb_lt in C1, C2.
  pose proof (length_take i n) as L. rewrite H in L. simpl in L. lia.
Qed.

Lemma path_eqb_eq a b : path_eqb a b = true <-> a = b.
Proof.
  revert b; induction a as [|x a IH]; intros [|y b]; simpl; split; intros H;
    try congruence; try discriminate.
  - apply andb_true_iff in H as [H1 H2]. apply String.eqb_eq in H1. apply IH in H2. congruence.
  - injection H as <- <-. apply andb_true_iff. split; [apply String.eqb_refl|now apply IH].
Qed.

Lemma name_snoc (i : path) (n : string) :
  n <> "/" -> n <> "//" -> name (i ++ [n])%list = n.
Proof.
  intros H H'. unfold name. rewrite last_part_snoc.
  destruct (String.eqb_spec n "/"), (String.eqb_spec n "//"); simpl; congruence.
Qed.

(** A [.las]/[.laz] path is named by its last part. *)
Lemma is_las_snoc_name (i : path) (n : string) :
  is_las (i ++ [n])%list = true -> name (i ++ [n])%list = n.
Proof.
  intros H. unfold name. rewrite last_part_snoc.
  destruct (String.eqb n "/" || String.eqb n "//") eqn:E; [|reflexivity].
  exfalso. unfold is_las, suffix, name in H. rewrite last_part_snoc, E in H.
  discriminate H.
Qed.

Lemma is_las_name (p : path) :
  is_las p = true <->
  exists x, x <> EmptyString /\ (name p = x ++ ".las" \/ name p = x ++ ".laz").
Proof.
  split.
  - intros H. exists (stem p).
    assert (Hs : suffix p = ".las" \/ suffix p = ".laz").
    { unfold is_las in H. apply orb_true_iff in H as [H|H]; apply String.eqb_eq in H; auto. }
    split.
    + apply split_ext_stem. fold (suffix p). destruct Hs as [-> | ->]; discriminate.
    + rewrite <- (split_ext_app (name p)). fold (stem p) (suffix p).
      destruct Hs as [-> | ->]; auto.
  - intros (x & Hx & Hn). unfold is_las, suffix.
    assert (Lx : String.length x > 0) by (destruct x; [congruence|simpl; lia]).
    destruct Hn as [-> | ->].
    + change (".las") with ("." ++ "las"). rewrite split_ext_las by auto. reflexivity.
    + change (".laz") with ("." ++ "laz"). rewrite split_ext_las by auto. reflexivity.
Qed.

Lemma color_name_las (f : path) x e :
  x <> EmptyString -> (e = ".las" \/ e = ".laz") -> name f = x ++ e ->
  color_name f = x ++ "_color" ++ e.
Proof.
  intros Hx He Hn. unfold color_name, stem, suffix. rewrite Hn.
  assert (Lx : String.length x > 0) by (destruct x; [congruence|simpl; lia]).
  destruct He as [-> | ->];
    [change (".las") with ("." ++ "las") | change (".laz") with ("." ++ "laz")];
    rewrite split_ext_las by auto; reflexivity.
Qed.

Lemma in_iterdir F i n :
  In (i ++ [n])%list (iterdir F i) <-> exists k, In ((i ++ [n])%list, k) F.
Proof.
  unfold iterdir. rewrite in_map_iff. split.
  - intros ([q' k] & Hq & Hin). apply filter_In in Hin as [Hin _]. simpl in Hq. subst q'.
    eauto.
  - intros (k & Hin). exists ((i ++ [n])%list, k). split; [reflexivity|].
    apply filter_In. split; [exact Hin|]. rewrite last_part_snoc. apply path_eqb_eq. reflexivity.
Qed.

Lemma iterdir_child F i f : In f (iterdir F i) -> exists n, f = (i ++ [n])%list.
Proof.
  unfold iterdir. rewrite in_map_iff. intros ([q' k] & Hq & Hin).
  apply filter_In in Hin as [_ Hc]. simpl in Hq. subst q'.
  destruct (last_part f) as [n|]; [|discriminate]. apply path_eqb_eq in Hc. eauto.
Qed.

Lemma app_same_length (a b e1 e2 : string) :
  String.length e1 = String.length e2 -> a ++ e1 = b ++ e2 -> a = b /\ e1 = e2.
Proof.
  intros L H.
  assert (La : String.length a = String.length b).
  { apply (f_equal String.length) in H. rewrite !length_app in H. lia. }
  split.
  - rewrite <- (take_app a e1), <- (take_app b e2), H, La. reflexivity.
  - rewrite <- (drop_app a e1), <- (drop_app b e2), H, La. reflexivity.
Qed.

Lemma color_name_inj (f g : path) :
  is_las f = true -> is_las g = true -> color_name f = color_name g -> name f = name g.
Proof.
  intros Hf Hg H.
  apply is_las_name in Hf as (x & Hx & Hnf), Hg as (y & Hy & Hng).
  assert (Ef : exists e, (e = ".las" \/ e = ".laz") /\ name f = x ++ e)
    by (destruct Hnf; eauto).
  assert (Eg : exists e, (e = ".las" \/ e = ".laz") /\ name g = y ++ e)
    by (destruct Hng; eauto).
  destruct Ef as (e1 & He1 & Hf'), Eg as (e2 & He2 & Hg').
  rewrite (color_name_las f x e1), (color_name_las g y e2) in H by auto.
  rewrite <- (app_assoc_str x "_color" e1), <- (app_assoc_str y "_color" e2) in H.
  apply app_same_length in H as [H1 H2];
    [|destruct He1 as [->| ->], He2 as [->| ->]; reflexivity].
  apply app_same_length in H1 as [-> _]; [|reflexivity]. rewrite Hf', Hg', H2. reflexivity.
Qed.

Lemma las_name_not_root x e :
  (e = ".las" \/ e = ".laz") -> x ++ e <> "/" /\ x ++ e <> "//".
Proof.
  intros He. split; intros H; apply (f_equal String.length) in H; rewrite length_app in H;
    destruct He as [-> | ->]; simpl in H; lia.
Qed.

Lemma nodup_iterdir F i : NoDup (map fst F) -> NoDup (iterdir F i).
Proof.
  unfold iterdir. induction F as [|[q k] F IH]; intros H; simpl; [constructor|].
  inversion H as [|? ? Hn Hd]; subst.
  destruct (match last_part q with Some n => path_eqb q (i ++ [n])%list | None => false end).
  - simpl. constructor; [|auto].
    intros Hin. apply Hn. apply in_map_iff in Hin as ([q' k'] & Hq & Hin).
    apply filter_In in Hin as [Hin _]. simpl in Hq. subst q'.
    apply in_map_iff. exists (q, k'). auto.
  - auto.
Qed.

Lemma nodup_map_inj {A B} (g : A -> B) (l : list A) :
  (forall x y, In x l -> In y l -> g x = g y -> x = y) -> NoDup l -> NoDup (map g l).
Proof.
  induction l as [|a l IH]; intros Hg Hd; simpl; [constructor|].
  inversion Hd as [|? ? Hn Hd']; subst. constructor.
  - intros Hin. apply in_map_iff in Hin as (y & Hy & Hin).
    apply Hn. rewrite (Hg a y); auto. now left. now right.
  - apply IH; auto. intros x y Hx Hy. apply Hg; now right.
Qed.

Lemma nodup_firstn {A} (k : nat) (l : list A) : NoDup l -> NoDup (firstn k l).
Proof.
  intros H. rewrite <- (firstn_skipn k l) in H. exact (NoDup_app_remove_r _ _ H).
Qed.

(** ** Path(str) *)

Lemma split_slash_nonempty s : split_slash s <> [].
Proof.
  induction s as [|c s IH]; simpl; [discriminate|].
  destruct (Ascii.eqb c "/"%char); [discriminate|].
  destruct (split_slash s); discriminate.
Qed.

Lemma split_slash_snoc s : split_slash (s ++ "/") = (split_slash s ++ [EmptyString])%list.
Proof.
  induction s as [|c s IH]; [reflexivity|]. simpl.
  destruct (Ascii.eqb c "/"%char); [rewrite IH; reflexivity|].
  rewrite IH. pose proof (split_slash_nonempty s) as Hn.
  destruct (split_slash s) as [|x l]; [congruence|]. reflexivity.
Qed.

(** ** Traces *)

Lemma tasks_of_app (a b : list event) :
  tasks_of (a ++ b)%list = (tasks_of a ++ tasks_of b)%list.
Proof. induction a as [|[] a IH]; simpl; congruence. Qed.

Lemma run_pdal_eq d E i o p tr :
  run_pdal d E i o p tr =
  let pj := pipeline_json d i o p in
  let tr1 := (tr ++ [RunPdal i o])%list in
  match eng_validate E tr1 pj with
  | Some m => ((tr1 ++ [Validate pj (Some m)])%list, Err (RuntimeError m))
  | None =>
      let tr2 := (tr1 ++ [Validate pj None])%list in
      match eng_execute E tr2 pj with
      | Some m => ((tr2 ++ [Execute pj (Some m)])%list, Err (RuntimeError m))
      | None => ((tr2 ++ [Execute pj None])%list, Ok tt)
      end
  end.
Proof.
  unfold run_pdal, bind, emit, validate, execute; simpl.
  destruct (eng_validate _ _ _); [reflexivity|].
  destruct (eng_execute _ _ _); reflexivity.
Qed.

(** A call of [run_pdal] appends one task and the engine calls on its
    pipeline text: [validate], then [execute] only if [validate] passed. *)
Lemma run_pdal_shape d E i o p tr :
  let pj := pipeline_json d i o p in
  exists v rest r,
    run_pdal d E i o p tr = ((tr ++ RunPdal i o :: Validate pj v :: rest)%list, r) /\
    ((exists m, v = Some m /\ rest = [] /\ r = Err (RuntimeError m)) \/
     (v = None /\ exists x, rest = [Execute pj x] /\
        r = match x with Some m => Err (RuntimeError m) | None => Ok tt end)).
Proof.
  intros pj. rewrite run_pdal_eq. simpl.
  destruct (eng_validate E _ _) as [m|] eqn:V.
  - exists (Some m), [], (Err (RuntimeError m)). rewrite <- !app_assoc. split; eauto.
  - destruct (eng_execute E _ _) as [m|] eqn:X.
    + exists None, [Execute pj (Some m)], (Err (RuntimeError m)).
      rewrite <- !app_assoc. split; eauto 8.
    + exists None, [Execute pj None], (Ok tt).
      rewrite <- !app_assoc. split; eauto 8.
Qed.

Definition no_fail (tr : list event) : Prop :=
  forall ev, In ev tr -> failure ev = None.

(** What a computation leaves: success or a [ValueError] with no engine
    failure in the trace, or an engine failure as the trace's last event. *)
Definition settled (res : list event * result unit) : Prop :=
  let (tr, r) := res in
  (r = Ok tt /\ no_fail tr) \/
  (exists m, r = Err (ValueError m) /\ no_fail tr) \/
  (exists m t0 ev, r = Err (RuntimeError m) /\ no_fail t0 /\
                   failure ev = Some m /\ tr = (t0 ++ [ev])%list).

Definition keeps_settled (m : M unit) : Prop :=
  forall tr, no_fail tr -> settled (m tr).

Lemma no_fail_app (a b : list event) :
  no_fail a -> no_fail b -> no_fail (a ++ b)%list.
Proof. intros Ha Hb ev Hin. apply in_app_or in Hin as [H|H]; auto. Qed.

Lemma no_fail_one ev : failure ev = None -> no_fail [ev].
Proof. intros H ev' [<-|[]]; auto. Qed.

Create HintDb trace.
Global Hint Resolve no_fail_app no_fail_one : trace.

Lemma run_pdal_settled d E i o p : keeps_settled (run_pdal d E i o p).
Proof.
  intros tr Htr. rewrite run_pdal_eq. simpl.
  destruct (eng_validate E _ _) as [m|].
  - right; right. do 3 eexists. repeat split; eauto with trace.
  - destruct (eng_execute E _ _) as [m|].
    + right; right. do 3 eexists. repeat split; eauto with trace.
    + left. split; eauto 7 with trace.
Qed.

Lemma for_each_settled {A} (xs : list A) (body : A -> M unit) :
  (forall x, keeps_settled (body x)) -> keeps_settled (for_each xs body).
Proof.
  intros Hb. induction xs as [|x xs IH]; intros tr Htr; simpl.
  - left; auto.
  - unfold bind. specialize (Hb x tr Htr).
    destruct (body x tr) as [tr1 [[]|e]]; simpl in Hb |- *.
    + destruct Hb as [[_ H]|[[m [H _]]|[m [? [? [H _]]]]]]; try discriminate.
      apply IH; auto.
    + exact Hb.
Qed.

Lemma raise_settled m : keeps_settled (raise (ValueError m)).
Proof. intros tr H. right; left; eauto. Qed.

Lemma ret_settled : keeps_settled (ret tt).
Proof. intros tr H. left; auto. Qed.

Lemma process_files_settled d F E i o p :
  keeps_settled (process_files d F E i o p).
Proof.
  unfold process_files.
  destruct (is_dir F i).
  - apply for_each_settled. intros f. unfold loop_body.
    destruct (is_las f); [destruct (is_dir F o)|];
      auto using run_pdal_settled, raise_settled, ret_settled.
  - destruct (is_las o); [|destruct (is_dir F o)];
      auto using run_pdal_settled, raise_settled.
Qed.

(** ** The directory loop *)

Section DirLoop.
Variables (d : string) (F : fs) (E : engine) (output_path : path) (p : params).

Lemma process_files_dir (input_path : path) :
  is_dir F input_path = true ->
  process_files d F E input_path output_path p =
  for_each (iterdir F input_path) (loop_body d F E output_path p).
Proof. intros H. unfold process_files. now rewrite H. Qed.

(** Whatever the engine does, the loop runs a prefix of its tasks. *)
Lemma loop_prefix (xs : list path) (tr : list event) :
  exists ev r k,
    for_each xs (loop_body d F E output_path p) tr = ((tr ++ ev)%list, r) /\
    tasks_of ev =
    firstn k (map (fun f => (f, join_path output_path (color_name f))) (filter is_las xs)).
Proof.
  revert tr; induction xs as [|x xs IH]; intros tr; simpl.
  - exists [], (Ok tt), 0. rewrite app_nil_r. auto.
  - unfold bind, loop_body at 1. destruct (is_las x) eqn:Hx.
    + destruct (is_dir F output_path).
      * destruct (run_pdal_shape d E x (join_path output_path (color_name x)) p tr)
          as (v & rest & r & Hrun & Hcase).
        rewrite Hrun.
        destruct Hcase as [(m & -> & -> & ->)|(-> & x' & -> & ->)].
        -- eexists _, _, 1. split; [reflexivity|]. reflexivity.
        -- destruct x' as [m|].
           ++ eexists _, _, 1. split; [reflexivity|]. reflexivity.
           ++ destruct (IH (tr ++ [RunPdal x (join_path output_path (color_name x));
                                   Validate (pipeline_json d x (join_path output_path
                                     (color_name x)) p) None;
                                   Execute (pipeline_json d x (join_path output_path
                                     (color_name x)) p) None])%list)
                as (ev & r & k & Hf & Ht).
              rewrite Hf. rewrite <- app_assoc.
              eexists _, r, (S k). split; [reflexivity|].
              simpl. now rewrite Ht.
      * exists [], (Err (ValueError msg_dir)), 0. rewrite app_nil_r. auto.
    + unfold ret at 1. destruct (IH tr) as (ev & r & k & Hf & Ht).
      exists ev, r, k. auto.
Qed.

(** With an output directory and an engine that never fails, the loop
    runs every task. *)
Lemma loop_all (xs : list path) (tr : list event) :
  is_dir F output_path = true ->
  (forall t s, eng_validate E t s = None /\ eng_execute E t s = None) ->
  exists ev,
    for_each xs (loop_body d F E output_path p) tr = ((tr ++ ev)%list, Ok tt) /\
    tasks_of ev =
    map (fun f => (f, join_path output_path (color_name f))) (filter is_las xs).
Proof.
  intros Hd Hok. revert tr; induction xs as [|x xs IH]; intros tr; simpl.
  - exists []. rewrite app_nil_r. auto.
  - unfold bind, loop_body at 1. destruct (is_las x) eqn:Hx.
    + rewrite Hd, run_pdal_eq. simpl.
      destruct (Hok (tr ++ [RunPdal x (join_path output_path (color_name x))])%list
                 (pipeline_json d x (join_path output_path (color_name x)) p)) as [-> _].
      rewrite (proj2 (Hok _ _)).
      destruct (IH (((tr ++ [RunPdal x (join_path output_path (color_name x))]) ++
                   [Validate (pipeline_json d x (join_path output_path (color_name x)) p)
                      None]) ++
                   [Execute (pipeline_json d x (join_path output_path (color_name x)) p)
                      None])%list) as (ev & Hf & Ht).
      rewrite Hf. rewrite <- !app_assoc. eexists. split; [reflexivity|].
      simpl. now rewrite Ht.
    + apply IH.
Qed.

End DirLoop.

Lemma run_pdal_tasks d E i o p tr :
  tasks_of (fst (run_pdal d E i o p tr)) = (tasks_of tr ++ [(i, o)])%list.
Proof.
  destruct (run_pdal_shape d E i o p tr) as (v & rest & r & -> & Hc).
  simpl. rewrite tasks_of_app. simpl. f_equal.
  destruct Hc as [(m & _ & -> & _)|(_ & x & -> & _)]; reflexivity.
Qed.

(** Single-file mode runs at most one task. *)
Lemma single_file_tasks d F E i o p :
  is_dir F i = false ->
  tasks_of (fst (run d F E i o p)) =
  if is_las o then [(i, o)]
  else if is_dir F o then [(i, join_path o (color_name i))]
  else [].
Proof.
  intros H. unfold run, process_files. rewrite H.
  destruct (is_las o); [|destruct (is_dir F o)];
    try (rewrite run_pdal_tasks; reflexivity).
  reflexivity.
Qed.

Lemma dir_tasks_in d F E i o p f o' :
  is_dir F i = true ->
  In (f, o') (tasks_of (fst (run d F E i o p))) ->
  is_las f = true /\ o' = join_path o (color_name f).
Proof.
  intros H Hin. unfold run in Hin. rewrite process_files_dir in Hin by exact H.
  destruct (loop_prefix d F E o p (iterdir F i) []) as (ev & r & k & Hf & Ht).
  rewrite Hf in Hin. simpl in Hin. rewrite Ht in Hin.
  assert (Hl : In (f, o') (map (fun f => (f, join_path o (color_name f)))
                               (filter is_las (iterdir F i)))).
  { rewrite <- (firstn_skipn k (map _ _)). apply in_or_app. now left. }
  apply in_map_iff in Hl as (f' & Hfo & Hf').
  injection Hfo as <- <-. apply filter_In in Hf' as [_ Hl]. auto.
Qed.

(** ** The pipeline text as JSON *)
(** ** Reading string literals *)

Lemma prepend_app (a b : string) o : prepend a (prepend b o) = prepend (a ++ b) o.
Proof. destruct o as [[v r]|]; simpl; auto. now rewrite app_assoc_str. Qed.

Lemma prepend_empty o : prepend EmptyString o = o.
Proof. destruct o as [[v r]|]; reflexivity. Qed.

Lemma lex_plain (s r : string) :
  plain s = true -> lex_str_body (s ++ r) = prepend s (lex_str_body r).
Proof.
  induction s as [|c s IH]; simpl; intros H.
  - now rewrite prepend_empty.
  - apply andb_true_iff in H as [Hc Hs]. unfold plain_char in Hc.
    apply andb_true_iff in Hc as [Hc H32]. apply andb_true_iff in Hc as [Hq Hb].
    apply negb_true_iff in Hq, Hb. apply Nat.leb_le in H32.
    rewrite Hq, Hb.
    replace (Nat.ltb (code c) 32) with false by (symmetry; apply Nat.ltb_ge; exact H32).
    rewrite IH by exact Hs. destruct (lex_str_body r) as [[]|]; reflexivity.
Qed.

Lemma replace_quote_app (a b : string) :
  replace_quote (a ++ b) = replace_quote a ++ replace_quote b.
Proof.
  induction a as [|c a IH]; simpl; auto.
  destruct (Ascii.eqb c dq); simpl; now rewrite IH.
Qed.

Lemma layer_app a ra b rb :
  layer_ok a ra -> layer_ok b rb -> layer_ok (a ++ b) (ra ++ rb).
Proof.
  intros Ha Hb r. rewrite replace_quote_app, app_assoc_str, Ha, Hb.
  apply prepend_app.
Qed.

Lemma layer_empty : layer_ok EmptyString EmptyString.
Proof. intros r. simpl. now rewrite prepend_empty. Qed.

Lemma layer_qplain (s : string) : qplain s = true -> layer_ok s s.
Proof.
  induction s as [|c s IH]; intros H; [apply layer_empty|].
  cbn [qplain] in H. apply andb_true_iff in H as [Hc Hs].
  apply andb_true_iff in Hc as [Hb H32].
  apply negb_true_iff in Hb. apply Nat.leb_le in H32.
  specialize (IH Hs).
  change (String c s) with (ch c ++ s). apply layer_app; [|exact IH].
  intros r. simpl.
  destruct (Ascii.eqb c dq) eqn:Hq.
  - apply Ascii.eqb_eq in Hq. subst c. simpl.
    destruct (lex_str_body r) as [[]|]; reflexivity.
  - simpl. rewrite Hq, Hb.
    replace (Nat.ltb (code c) 32) with false by (symmetry; apply Nat.ltb_ge; exact H32).
    destruct (lex_str_body r) as [[]|]; reflexivity.
Qed.

(** Every character [json.dumps] may escape comes back through the two
    string-literal layers, when it is a plain one. *)
Lemma layer_escape_char c : plain_char c = true -> layer_ok (escape_char c) (ch c).
Proof.
  intros H r. destruct c as [b0 b1 b2 b3 b4 b5 b6 b7].
  destruct b0, b1, b2, b3, b4, b5, b6, b7; try discriminate H;
    match goal with |- context [replace_quote (escape_char ?c)] =>
      let x := eval vm_compute in (replace_quote (escape_char c)) in
      change (replace_quote (escape_char c)) with x end;
    cbn; destruct (lex_str_body r) as [[]|]; reflexivity.
Qed.

Lemma layer_encode_body s : plain s = true -> layer_ok (encode_body s) s.
Proof.
  induction s as [|c s IH]; intros H; [apply layer_empty|].
  cbn [plain] in H. apply andb_true_iff in H as [Hc Hs].
  cbn [encode_body]. change (String c s) with (ch c ++ s).
  apply layer_app; auto using layer_escape_char.
Qed.

Lemma layer_encode_str s : plain s = true -> layer_ok (encode_str s) (q ++ s ++ q).
Proof.
  intros H. unfold encode_str.
  apply layer_app; [apply layer_qplain; reflexivity|].
  apply layer_app; [apply layer_encode_body; exact H|].
  apply layer_qplain; reflexivity.
Qed.

(** ** Numbers *)

Lemma num_step_char st c st' :
  num_step st c = Some st' -> num_char c = true.
Proof.
  intros H. destruct c as [b0 b1 b2 b3 b4 b5 b6 b7].
  destruct b0, b1, b2, b3, b4, b5, b6, b7; try reflexivity;
    do 9 (destruct st as [|st]; [discriminate H|]); discriminate H.
Qed.

Lemma num_char_qplain c : num_char c = true -> negb (Ascii.eqb c bs) && Nat.leb 32 (code c) = true.
Proof.
  intros H. destruct c as [b0 b1 b2 b3 b4 b5 b6 b7].
  destruct b0, b1, b2, b3, b4, b5, b6, b7; try discriminate H; reflexivity.
Qed.

Lemma num_run_all st s : num_run st s = true -> all_num s = true.
Proof.
  revert st; induction s as [|c s IH]; intros st H; [reflexivity|].
  cbn [num_run] in H. destruct (num_step st c) as [st'|] eqn:E; [|discriminate H].
  cbn [all_num]. rewrite (num_step_char _ _ _ E). simpl. eauto.
Qed.

Lemma all_num_qplain s : all_num s = true -> qplain s = true.
Proof.
  induction s as [|c s IH]; intros H; [reflexivity|].
  cbn [all_num] in H. apply andb_true_iff in H as [Hc Hs].
  cbn [qplain]. rewrite (num_char_qplain _ Hc). simpl. auto.
Qed.

Lemma munch_num_app s r :
  all_num s = true -> munch_num (s ++ r) = let (a, b) := munch_num r in (s ++ a, b).
Proof.
  induction s as [|c s IH]; intros H.
  - simpl. destruct (munch_num r); reflexivity.
  - cbn [all_num] in H. apply andb_true_iff in H as [Hc Hs].
    simpl. rewrite Hc, IH by exact Hs. destruct (munch_num r); reflexivity.
Qed.

(** A JSON number starts with a minus sign or a digit. *)
Lemma num_start c st : num_step 0 c = Some st ->
  In c ["-"; "0"; "1"; "2"; "3"; "4"; "5"; "6"; "7"; "8"; "9"]%char.
Proof.
  intros H. destruct c as [b0 b1 b2 b3 b4 b5 b6 b7].
  destruct b0, b1, b2, b3, b4, b5, b6, b7; try discriminate H; simpl; tauto.
Qed.

(** ** The bundle text *)

Lemma layer_val v : safe_val v = true -> layer_ok (dumps_val v) (raw_val v).
Proof.
  destruct v as [s|lit]; simpl; intros H.
  - now apply layer_encode_str.
  - apply layer_qplain, all_num_qplain, (num_run_all 0), H.
Qed.

Lemma layer_entry k v : plain k = true -> safe_val v = true ->
  layer_ok (encode_str k ++ ": " ++ dumps_val v) (q ++ k ++ q ++ ": " ++ raw_val v).
Proof.
  intros Hk Hv.
  replace (q ++ k ++ q ++ ": " ++ raw_val v) with ((q ++ k ++ q) ++ ": " ++ raw_val v)
    by now rewrite !app_assoc_str.
  apply layer_app; [now apply layer_encode_str|].
  apply layer_app; [apply layer_qplain; reflexivity|now apply layer_val].
Qed.

Lemma layer_join sep l l' :
  layer_ok sep sep -> Forall2 layer_ok l l' -> layer_ok (join sep l) (join sep l').
Proof.
  intros Hs H. induction H as [|x y l l' Hxy Hl IH]; [apply layer_empty|].
  destruct Hl as [|x' y' l0 l0' Hxy' Hl']; [exact Hxy|].
  cbn [join]. apply layer_app; [exact Hxy|]. apply layer_app; [exact Hs|exact IH].
Qed.

Lemma layer_dumps p : params_safe p = true ->
  layer_ok (json_dumps (pdalargs p)) (raw_dumps (pdalargs p)).
Proof.
  destruct p as [srs url layer wsrs ver fmt px mx]. intros H.
  unfold params_safe in H.
  cbn [las_srs wms_url wms_layer wms_srs wms_version wms_format wms_pixel_size
       wms_max_image_size] in H. repeat rewrite andb_true_iff in H.
  destruct H as [[[[[[[H1 H2] H3] H4] H5] H6] H7] H8].
  unfold json_dumps, raw_dumps.
  apply layer_app; [apply layer_qplain; reflexivity|].
  apply layer_app; [|apply layer_qplain; reflexivity].
  apply layer_join; [apply layer_qplain; reflexivity|].
  cbn [map fst snd pdalargs].
  repeat constructor; apply layer_entry; first [reflexivity | assumption].
Qed.



Lemma all_num_valid lit : valid_number lit = true -> all_num lit = true.
Proof. apply num_run_all. Qed.

Lemma parse_raw_val f v r :
  1 <= f -> safe_val v = true -> munch_num r = (EmptyString, r) ->
  parse_value f (raw_val v ++ r) = Some (jval v, r).
Proof.
  intros Hf Hv Hr. destruct f as [|f]; [lia|].
  destruct v as [s|lit]; cbn [safe_val raw_val jval] in *.
  - rewrite !app_assoc_str. cbv [q ch dq]. simpl. rewrite lex_plain by exact Hv. simpl. now rewrite app_empty_str.
  - pose proof (all_num_valid _ Hv) as Ha. pose proof Hv as Hv0.
    destruct lit as [|c lit']; [discriminate Hv|].
    unfold valid_number in Hv. cbn [num_run] in Hv.
    destruct (num_step 0 c) as [st|] eqn:E; [|discriminate Hv].
    cbn [all_num] in Ha. apply andb_true_iff in Ha as [_ Ha].
    apply num_start in E.
    repeat (destruct E as [<-|E]; [simpl; rewrite munch_num_app by exact Ha; rewrite Hr;
      rewrite app_empty_str; cbv beta iota zeta; rewrite Hv0; reflexivity|]).
    destruct E.
Qed.

Lemma parse_members_ws f s : parse_members f (String " " s) = parse_members f s.
Proof. destruct f; reflexivity. Qed.

Lemma parse_value_ws f s : parse_value f (String " " s) = parse_value f s.
Proof. destruct f; reflexivity. Qed.

Lemma join_cons2 sep x y l : join sep (x :: y :: l) = x ++ sep ++ join sep (y :: l).
Proof. reflexivity. Qed.

Lemma parse_members_raw d : forall f r,
  d <> [] -> Forall (fun kv => plain (fst kv) = true /\ safe_val (snd kv) = true) d ->
  length d <= f ->
  parse_members (S f) (join ", " (map raw_entry d) ++ "}" ++ r) =
  Some (map (fun kv => (fst kv, jval (snd kv))) d, r).
Proof.
  induction d as [|[k v] d IH]; intros f r Hne Hd Hf; [congruence|].
  inversion Hd as [|? ? [Hk Hv] Hd']; subst. cbn [fst snd] in Hk, Hv.
  destruct d as [|kv' d].
  - unfold raw_entry. cbn [map join fst snd]. rewrite !app_assoc_str. cbv [q ch dq].
    simpl. rewrite lex_plain by exact Hk. simpl. rewrite app_empty_str, parse_value_ws.
    rewrite parse_raw_val by (simpl in Hf; first [lia | exact Hv | reflexivity]).
    reflexivity.
  - change (map raw_entry ((k, v) :: kv' :: d)) with
      (raw_entry (k, v) :: raw_entry kv' :: map raw_entry d).
    rewrite join_cons2. remember (join ", " (raw_entry kv' :: map raw_entry d)) as T eqn:HT.
    unfold raw_entry. cbn [fst snd]. rewrite !app_assoc_str.
    cbv [q ch dq].
    simpl. rewrite lex_plain by exact Hk. simpl. rewrite app_empty_str, parse_value_ws.
    rewrite parse_raw_val by (simpl in Hf; first [lia | exact Hv | reflexivity]).
    simpl. rewrite parse_members_ws.
    destruct f as [|f]; [simpl in Hf; lia|].
    subst T. change (raw_entry kv' :: map raw_entry d) with (map raw_entry (kv' :: d)).
    change (String "}" r) with ("}" ++ r).
    rewrite IH by (first [congruence | exact Hd' | simpl in Hf |- *; lia]).
    reflexivity.
Qed.

Lemma parse_obj_raw d f r :
  d <> [] -> Forall (fun kv => plain (fst kv) = true /\ safe_val (snd kv) = true) d ->
  length d <= f ->
  parse_value (S (S f)) ("{" ++ join ", " (map raw_entry d) ++ "}" ++ r) =
  Some (JObj (map (fun kv => (fst kv, jval (snd kv))) d), r).
Proof.
  intros Hne Hd Hf.
  assert (HY : exists Y, join ", " (map raw_entry d) ++ "}" ++ r = String dq Y).
  { destruct d as [|kv [|kv' d]]; [congruence| |]; eexists; reflexivity. }
  destruct HY as [Y HY].
  change ("{" ++ join ", " (map raw_entry d) ++ "}" ++ r)
    with (String "{" (join ", " (map raw_entry d) ++ "}" ++ r)).
  transitivity (match parse_members (S f) (join ", " (map raw_entry d) ++ "}" ++ r) with
                | Some (ms, r'') => Some (JObj ms, r'')
                | None => None
                end).
  - rewrite HY. reflexivity.
  - rewrite parse_members_raw by assumption. reflexivity.
Qed.

Lemma inner_bundle p : params_safe p = true ->
  json_loads (raw_dumps (pdalargs p)) = Some (bundle_json p).
Proof.
  destruct p as [srs url layer wsrs ver fmt px mx]. intros H.
  unfold params_safe in H.
  cbn [las_srs wms_url wms_layer wms_srs wms_version wms_format wms_pixel_size
       wms_max_image_size] in H. repeat rewrite andb_true_iff in H.
  destruct H as [[[[[[[H1 H2] H3] H4] H5] H6] H7] H8].
  unfold json_loads.
  assert (Hl : 9 <= 2 * String.length (raw_dumps (pdalargs
    {| las_srs := srs; wms_url := url; wms_layer := layer; wms_srs := wsrs;
       wms_version := ver; wms_format := fmt; wms_pixel_size := px;
       wms_max_image_size := mx |}))) by (simpl; lia).
  destruct (2 * String.length _) as [|[|f]] eqn:E; [lia|lia|].
  unfold raw_dumps. rewrite <- (app_empty_str "}").
  rewrite parse_obj_raw.
  - reflexivity.
  - discriminate.
  - repeat constructor; cbn [fst snd safe_val]; first [reflexivity | assumption].
  - simpl. lia.
Qed.

Lemma outer_len si d D srs so :
  exists f, 2 * String.length (PDAL_PIPELINE_format si d (replace_quote D) srs so) = 20 + f.
Proof.
  exists (2 * String.length (PDAL_PIPELINE_format si d (replace_quote D) srs so) - 20).
  unfold PDAL_PIPELINE_format. simpl. lia.
Qed.

(** [simpl] unfolds the reader only on a text whose first character is
    known: past a text it cannot see, it leaves the call alone instead of
    expanding every branch with the fuel left. *)
Arguments parse_value fuel !s.
Arguments parse_members fuel !s.
Arguments parse_elems fuel !s.

Lemma outer_parse si d D R srs so f :
  plain si = true -> plain d = true -> plain srs = true -> plain so = true ->
  layer_ok D R ->
  parse_value (20 + f) (PDAL_PIPELINE_format si d (replace_quote D) srs so) =
  Some (stages_json si d R srs so, EmptyString).
Proof.
  intros Hi Hd Hs Ho HL.
  unfold PDAL_PIPELINE_format. cbv [q ch dq nl].
  simpl.
  repeat (first [rewrite lex_plain by assumption | rewrite HL | rewrite app_empty_str]; simpl).
  reflexivity.
Qed.

Lemma outer_loads si d D R srs so :
  plain si = true -> plain d = true -> plain srs = true -> plain so = true ->
  layer_ok D R ->
  json_loads (PDAL_PIPELINE_format si d (replace_quote D) srs so) =
  Some (stages_json si d R srs so).
Proof.
  intros Hi Hd Hs Ho HL. unfold json_loads.
  destruct (outer_len si d D srs so) as [f ->].
  change (S (20 + f)) with (20 + S f).
  rewrite (outer_parse si d D R srs so) by assumption. reflexivity.
Qed.

Lemma params_safe_srs p : params_safe p = true -> plain (las_srs p) = true.
Proof.
  unfold params_safe. intros H. repeat rewrite andb_true_iff in H. tauto.
Qed.

(** With plain paths and a safe bundle, the pipeline text reads as the
    three stages, and its [pdalargs] string as the caller's bundle. *)
Lemma pipeline_loads d i o p :
  plain (as_posix i) = true -> plain d = true -> plain (as_posix o) = true ->
  params_safe p = true ->
  json_loads (pipeline_json d i o p) =
    Some (stages_json (as_posix i) d (raw_dumps (pdalargs p)) (las_srs p) (as_posix o)) /\
  embedded_bundle (pipeline_json d i o p) = Some (bundle_json p).
Proof.
  intros Hi Hd Ho Hp.
  assert (Hl : json_loads (pipeline_json d i o p) =
    Some (stages_json (as_posix i) d (raw_dumps (pdalargs p)) (las_srs p) (as_posix o))).
  { unfold pipeline_json. apply outer_loads; auto using params_safe_srs, layer_dumps. }
  split; [exact Hl|].
  unfold embedded_bundle. rewrite Hl. simpl. apply inner_bundle, Hp.
Qed.

(** ** json.dumps read back *)

Lemma lex_escape c r : lex_str_body (escape_char c ++ r) = cons_res c (lex_str_body r).
Proof.
  destruct c as [b0 b1 b2 b3 b4 b5 b6 b7].
  destruct b0, b1, b2, b3, b4, b5, b6, b7;
    match goal with |- context [escape_char ?c] =>
      let x := eval vm_compute in (escape_char c) in
      change (escape_char c) with x end;
    cbn; destruct (lex_str_body r) as [[]|]; reflexivity.
Qed.

Lemma lex_encode_body s r : lex_str_body (encode_body s ++ String dq r) = Some (s, r).
Proof.
  induction s as [|c s IH]; [reflexivity|].
  cbn [encode_body]. rewrite app_assoc_str, lex_escape, IH. reflexivity.
Qed.

Lemma parse_encode_str f s r :
  1 <= f -> parse_value f (encode_str s ++ r) = Some (JStr s, r).
Proof.
  intros Hf. destruct f as [|f]; [lia|].
  unfold encode_str. rewrite !app_assoc_str.
  transitivity (match lex_str_body (encode_body s ++ String dq r) with
                | Some (v, r') => Some (JStr v, r')
                | None => None
                end); [reflexivity|].
  rewrite lex_encode_body. reflexivity.
Qed.

Lemma parse_dumps_val f v r :
  1 <= f -> num_ok v = true -> munch_num r = (EmptyString, r) ->
  parse_value f (dumps_val v ++ r) = Some (jval v, r).
Proof.
  intros Hf Hv Hr. destruct v as [s|lit].
  - apply parse_encode_str, Hf.
  - change (dumps_val (PNum lit)) with (raw_val (PNum lit)).
    apply parse_raw_val; auto.
Qed.

Lemma parse_members_dumps d : forall f r,
  d <> [] -> Forall (fun kv => num_ok (snd kv) = true) d ->
  length d <= f ->
  parse_members (S f) (join ", " (map dumps_entry d) ++ "}" ++ r) =
  Some (map (fun kv => (fst kv, jval (snd kv))) d, r).
Proof.
  induction d as [|[k v] d IH]; intros f r Hne Hd Hf; [congruence|].
  inversion Hd as [|? ? Hv Hd']; subst. cbn [fst snd] in Hv.
  destruct d as [|kv' d].
  - unfold dumps_entry, encode_str. cbn [map join fst snd]. rewrite !app_assoc_str.
    cbv [q ch]. simpl. rewrite lex_encode_body. simpl. rewrite parse_value_ws.
    rewrite parse_dumps_val by (simpl in Hf; first [lia | exact Hv | reflexivity]).
    reflexivity.
  - change (map dumps_entry ((k, v) :: kv' :: d)) with
      (dumps_entry (k, v) :: dumps_entry kv' :: map dumps_entry d).
    rewrite join_cons2. remember (join ", " (dumps_entry kv' :: map dumps_entry d)) as T eqn:HT.
    unfold dumps_entry, encode_str. cbn [fst snd]. rewrite !app_assoc_str.
    cbv [q ch]. simpl. rewrite lex_encode_body. simpl. rewrite parse_value_ws.
    rewrite parse_dumps_val by (simpl in Hf; first [lia | exact Hv | reflexivity]).
    simpl. rewrite parse_members_ws.
    destruct f as [|f]; [simpl in Hf; lia|].
    subst T. change (dumps_entry kv' :: map dumps_entry d) with (map dumps_entry (kv' :: d)).
    change (String "}" r) with ("}" ++ r).
    rewrite IH by (first [congruence | exact Hd' | simpl in Hf |- *; lia]).
    reflexivity.
Qed.

Lemma parse_obj_dumps d f r :
  d <> [] -> Forall (fun kv => num_ok (snd kv) = true) d ->
  length d <= f ->
  parse_value (S (S f)) ("{" ++ join ", " (map dumps_entry d) ++ "}" ++ r) =
  Some (JObj (map (fun kv => (fst kv, jval (snd kv))) d), r).
Proof.
  intros Hne Hd Hf.
  assert (HY : exists Y, join ", " (map dumps_entry d) ++ "}" ++ r = String dq Y).
  { destruct d as [|kv [|kv' d]]; [congruence| |]; eexists; reflexivity. }
  destruct HY as [Y HY].
  change ("{" ++ join ", " (map dumps_entry d) ++ "}" ++ r)
    with (String "{" (join ", " (map dumps_entry d) ++ "}" ++ r)).
  transitivity (match parse_members (S f) (join ", " (map dumps_entry d) ++ "}" ++ r) with
                | Some (ms, r'') => Some (JObj ms, r'')
                | None => None
                end).
  - rewrite HY. reflexivity.
  - rewrite parse_members_dumps by assumption. reflexivity.
Qed.

Lemma json_dumps_entries d : json_dumps d = "{" ++ join ", " (map dumps_entry d) ++ "}".
Proof. reflexivity. Qed.

Lemma dumps_bundle_loads p :
  num_ok (wms_pixel_size p) = true -> num_ok (wms_max_image_size p) = true ->
  json_loads (json_dumps (pdalargs p)) = Some (bundle_json p).
Proof.
  destruct p as [srs url layer wsrs ver fmt px mx]. cbn [wms_pixel_size wms_max_image_size].
  intros H7 H8. unfold json_loads.
  assert (Hl : 9 <= 2 * String.length (json_dumps (pdalargs
    {| las_srs := srs; wms_url := url; wms_layer := layer; wms_srs := wsrs;
       wms_version := ver; wms_format := fmt; wms_pixel_size := px;
       wms_max_image_size := mx |}))) by (simpl; lia).
  destruct (2 * String.length _) as [|[|f]] eqn:E; [lia|lia|].
  rewrite json_dumps_entries, <- (app_empty_str "}").
  rewrite parse_obj_dumps.
  - reflexivity.
  - discriminate.
  - repeat constructor; cbn [fst snd num_ok]; first [reflexivity | assumption].
  - simpl. lia.
Qed.

(** ** The verbose run against the quiet one *)

Lemma erase_app a b : erase (a ++ b)%list = (erase a ++ erase b)%list.
Proof. induction a as [|[] a IH]; simpl; congruence. Qed.

Lemma shown_app v a b : shown v (a ++ b)%list = (shown v a ++ shown v b)%list.
Proof. destruct v; unfold shown, announce; [apply flat_map_app | apply map_app]. Qed.

Lemma erase_shown v tr : erase (shown v tr) = tr.
Proof.
  destruct v; unfold shown, announce; induction tr as [|[] tr IH]; simpl; congruence.
Qed.

Lemma sim_bind v mv1 m1 mv2 m2 :
  sim v mv1 m1 -> sim v mv2 m2 -> sim v (mv1 ;;; mv2) (m1 ;; m2).
Proof.
  intros H1 H2 vtr. destruct (H1 vtr) as (n1 & r1 & E1 & F1).
  unfold bind, vbind. rewrite E1, F1. destruct r1 as [[]|e].
  - destruct (H2 (vtr ++ shown v n1)%list) as (n2 & r2 & E2 & F2).
    rewrite erase_app, erase_shown in E2. rewrite E2, F2.
    exists (n1 ++ n2)%list, r2. rewrite shown_app, !app_assoc. auto.
  - exists n1, (Err e). auto.
Qed.

Lemma sim_ret v : sim v (vret tt) (ret tt).
Proof. intros vtr. exists [], (Ok tt).
  destruct v; simpl; rewrite !app_nil_r; split; reflexivity. Qed.

Lemma sim_raise v e : sim v (vraise e) (raise e).
Proof. intros vtr. exists [], (Err e).
  destruct v; simpl; rewrite !app_nil_r; split; reflexivity. Qed.

Lemma sim_task v d E i o p :
  sim v (say v (msg_colorizing i) ;;; say v (msg_saving o) ;;; run_pdal_v d E i o p)
        (run_pdal d E i o p).
Proof.
  intros vtr. set (pj := pipeline_json d i o p).
  unfold run_pdal, run_pdal_v, bind, vbind, emit, vemit, validate, vvalidate,
    execute, vexecute, say, print, vret. fold pj.
  destruct v; rewrite ?erase_app; cbn [erase app]; rewrite ?app_nil_r;
  (destruct (eng_validate E (erase vtr ++ [RunPdal i o])%list pj) as [m|];
   [|rewrite ?erase_app; cbn [erase app]; rewrite ?app_nil_r;
     destruct (eng_execute E ((erase vtr ++ [RunPdal i o]) ++ [Validate pj None])%list pj)
       as [m|]]);
  eexists; eexists; (split; [rewrite <- !app_assoc; reflexivity|]); simpl;
  rewrite <- !app_assoc; reflexivity.
Qed.

Lemma sim_for_each v {A} (xs : list A) body vbody :
  (forall x, sim v (vbody x) (body x)) -> sim v (vfor_each xs vbody) (for_each xs body).
Proof.
  intros H. induction xs as [|x xs IH]; simpl; [apply sim_ret|].
  apply sim_bind; auto.
Qed.

Lemma sim_loop_body v d F E o p f :
  sim v (loop_body_v d F E o p v f) (loop_body d F E o p f).
Proof.
  unfold loop_body_v, loop_body.
  destruct (is_las f); [|apply sim_ret].
  destruct (is_dir F o); [apply sim_task | apply sim_raise].
Qed.

Lemma sim_process_files v d F E i o p :
  is_dir F i = true \/ is_las o = true \/ is_dir F o = true \/ v = false ->
  sim v (process_files_v d F E i o p v) (process_files d F E i o p).
Proof.
  intros Hc. unfold process_files_v, process_files.
  destruct (is_dir F i).
  { apply sim_for_each. intros f. apply sim_loop_body. }
  destruct (is_las o).
  { apply sim_task. }
  destruct (is_dir F o).
  { intros vtr. destruct (sim_task v d E i (join_path o (color_name i)) p vtr)
      as (n & r & E1 & F1).
    exists n, r. split; [exact E1|]. rewrite <- F1. unfold vbind. destruct v; reflexivity. }
  destruct Hc as [H|[H|[H|H]]]; try discriminate. subst v.
  intros vtr. exists [], (Err (ValueError msg_out)). rewrite !app_nil_r. auto.
Qed.

Lemma process_files_v_run v d F E i o p :
  is_dir F i = true \/ is_las o = true \/ is_dir F o = true \/ v = false ->
  process_files_v d F E i o p v [] = (shown v (fst (run d F E i o p)), snd (run d F E i o p)).
Proof.
  intros Hc. destruct (sim_process_files v d F E i o p Hc []) as (n & r & E1 & F1).
  unfold run. simpl in E1, F1. rewrite E1, F1. reflexivity.
Qed.

(** The directory loop with an output that is not a directory: it stops at
    the first [.las]/[.laz] entry, before any print or engine call. *)
Lemma vloop_bad_output d F E o p v :
  is_dir F o = false -> forall xs tr,
  vfor_each xs (loop_body_v d F E o p v) tr =
    (tr, if existsb is_las xs then Err (ValueError msg_dir) else Ok tt).
Proof.
  intros Hd xs. induction xs as [|x xs IH]; intros tr; [reflexivity|].
  assert (Hb : loop_body_v d F E o p v x =
                if is_las x then vraise (ValueError msg_dir) else vret tt)
    by (unfold loop_body_v; rewrite Hd; reflexivity).
  cbn [vfor_each existsb]. unfold vbind at 1. rewrite Hb.
  destruct (is_las x); [reflexivity|]. apply IH.
Qed.

(* ================================================================== *)
(** * The claims *)

(** ** Output paths of the tasks *)

(** C1 (counterexample): a single-file input [a.las] with output path
    [a.las] runs the task [a.las -> a.las], input and output colliding;
    and a single-file input [scan.txt] with an output directory gets the
    output [out/scan_color.txt], which does not end in [.las] / [.laz]. *)
Lemma C1_task_output_counterexample :
  tasks_of (fst (run "" [] engine_ok ["a.las"] ["a.las"] default_params))
    = [(["a.las"], ["a.las"])] /\
  tasks_of (fst (run "" [(["out"], Dir)] engine_ok ["scan.txt"] ["out"] default_params))
    = [(["scan.txt"], ["out"; "scan_color.txt"])] /\
  is_las ["out"; "scan_color.txt"] = false.
Proof. vm_compute. repeat split. Qed.

(** C1 (amended): in directory-input mode every task's output path has a
    [.las] / [.laz] suffix and differs from its input path; in
    single-file mode with a [.las] / [.laz] output path the task is
    [input -> output] verbatim (the two may be equal); in single-file mode
    with an output directory the task is [input -> output/<stem>_color<ext>],
    which differs from the input path (its suffix is the input's own,
    never checked). *)
Theorem C1_task_output_paths d F E i o p f o' :
  In (f, o') (tasks_of (fst (run d F E i o p))) ->
  (is_dir F i = true -> is_las o' = true /\ f <> o') /\
  (is_dir F i = false -> is_las o = true -> f = i /\ o' = o /\ is_las o' = true) /\
  (is_dir F i = false -> is_las o = false ->
     f = i /\ o' = join_path o (color_name i) /\ f <> o').
Proof.
  intros Hin. split; [|split].
  - intros Hd. destruct (dir_tasks_in d F E i o p f o' Hd Hin) as [Hl ->].
    split; [now apply is_las_join_color | apply join_color_neq].
  - intros Hd Hl. rewrite single_file_tasks, Hl in Hin by exact Hd.
    destruct Hin as [[= <- <-]|[]]. auto.
  - intros Hd Hl. rewrite single_file_tasks, Hl in Hin by exact Hd.
    destruct (is_dir F o); [|destruct Hin].
    destruct Hin as [[= <- <-]|[]]. auto using join_color_neq.
Qed.

Lemma C1_task_output_paths_witness :
  In (["a.las"], ["a.las"])
     (tasks_of (fst (run "" [] engine_ok ["a.las"] ["a.las"] default_params))) /\
  (is_dir [] ["a.las"] = false -> is_las ["a.las"] = true ->
     ["a.las"] = ["a.las"] /\ ["a.las"] = ["a.las"] /\ is_las ["a.las"] = true).
Proof.
  assert (H : In (["a.las"], ["a.las"])
     (tasks_of (fst (run "" [] engine_ok ["a.las"] ["a.las"] default_params))))
    by (vm_compute; left; reflexivity).
  split; [exact H|].
  exact (proj1 (proj2 (C1_task_output_paths "" [] engine_ok ["a.las"] ["a.las"]
                          default_params ["a.las"] ["a.las"] H))).
Defined.

(** ** Errors *)

(** C2 (failing input): the input [data] is a directory whose only entry
    is [notes.txt], and the output path [o.las] is not a directory; the
    run ends normally, with no task and no error. *)
Theorem C2_dir_input_non_dir_output_no_error d E p :
  run d [(["data"], Dir); (["data"; "notes.txt"], File)] E ["data"] ["o.las"] p
  = ([], Ok tt).
Proof. reflexivity. Qed.

(** C9: a single-file input whose output path neither has a [.las] /
    [.laz] suffix nor is an existing directory raises [ValueError]
    (InvalidArgument) before any engine call: the trace is empty. *)
Theorem C9_single_file_bad_output_raises d F E i o p :
  is_dir F i = false -> is_las o = false -> is_dir F o = false ->
  run d F E i o p = ([], Err (ValueError msg_out)).
Proof.
  intros Hi Hl Ho. unfold run, process_files. rewrite Hi, Hl, Ho. reflexivity.
Qed.

Lemma C9_single_file_bad_output_raises_witness :
  run "" sample_fs engine_ok ["scan.laz"] ["out.txt"] default_params
  = ([], Err (ValueError msg_out)).
Proof.
  apply C9_single_file_bad_output_raises; reflexivity.
Defined.

(** C10: an input path that is not a directory, existing or not, is
    taken as a single file; with a [.las] / [.laz] output path or an
    output directory the run goes straight to [run_pdal] and the engine's
    [validate], and never ends in [ValueError]. *)
Theorem C10_missing_input_reaches_engine d F E i o p :
  is_dir F i = false -> (is_las o = true \/ is_dir F o = true) ->
  (exists o' pj v rest,
     fst (run d F E i o p) = RunPdal i o' :: Validate pj v :: rest) /\
  (forall m, snd (run d F E i o p) <> Err (ValueError m)).
Proof.
  intros Hi Ho. unfold run, process_files. rewrite Hi.
  assert (Hrun : forall o', (exists pj v rest,
            fst (run_pdal d E i o' p []) = RunPdal i o' :: Validate pj v :: rest) /\
          (forall m, snd (run_pdal d E i o' p []) <> Err (ValueError m))).
  { intros o'. destruct (run_pdal_shape d E i o' p []) as (v & rest & r & -> & Hc).
    split; [do 3 eexists; reflexivity|].
    intros m. simpl.
    destruct Hc as [(m' & _ & _ & ->)|(_ & [m'|] & _ & ->)]; discriminate. }
  destruct (is_las o) eqn:Hl.
  - destruct (Hrun o) as [(pj & v & rest & H1) H2]. eauto 6.
  - destruct Ho as [Ho|Ho]; [discriminate|]. rewrite Ho.
    destruct (Hrun (join_path o (color_name i))) as [(pj & v & rest & H1) H2]. eauto 6.
Qed.

(** The input [missing.laz] does not exist. *)
Lemma C10_missing_input_reaches_engine_witness :
  exists_path sample_fs ["missing.laz"] = false /\
  (exists o' pj v rest,
     fst (run "" sample_fs engine_ok ["missing.laz"] ["out"] default_params)
     = RunPdal ["missing.laz"] o' :: Validate pj v :: rest).
Proof.
  split; [reflexivity|].
  apply (C10_missing_input_reaches_engine "" sample_fs engine_ok ["missing.laz"] ["out"]
           default_params); [reflexivity | right; reflexivity].
Defined.

(** C4: once the engine reports a failure ([validate] or [execute]
    raising), that failure is the last event of the run and the run ends
    with it as a [RuntimeError] (EngineError); in directory mode the
    tasks attempted are the first [k] of the listing's tasks, so none
    after the failing one is attempted. *)
Theorem C4_engine_failure_aborts_run d F E i o p pre ev post m :
  fst (run d F E i o p) = (pre ++ ev :: post)%list ->
  failure ev = Some m ->
  post = [] /\ snd (run d F E i o p) = Err (RuntimeError m) /\
  (is_dir F i = true ->
     exists k, tasks_of (fst (run d F E i o p)) = firstn k (dir_tasks F i o)).
Proof.
  intros Htr Hev.
  assert (Hdir : is_dir F i = true ->
     exists k, tasks_of (fst (run d F E i o p)) = firstn k (dir_tasks F i o)).
  { intros Hd. unfold run. rewrite process_files_dir by exact Hd.
    destruct (loop_prefix d F E o p (iterdir F i) []) as (ev' & r & k & -> & Ht).
    exists k. exact Ht. }
  assert (Hin : In ev (fst (run d F E i o p))).
  { rewrite Htr. apply in_or_app. right. now left. }
  pose proof (process_files_settled d F E i o p [] ltac:(intros ? [])) as Hs.
  fold (run d F E i o p) in Hs.
  destruct (run d F E i o p) as [tr r]. simpl in *.
  destruct Hs as [[_ Hnf]|[(m' & _ & Hnf)|(m' & t0 & ev' & -> & Hnf & Hf & ->)]];
    try (rewrite (Hnf ev Hin) in Hev; discriminate).
  destruct post as [|e post] using rev_ind.
  - apply app_inj_tail in Htr as [_ <-]. rewrite Hf in Hev. injection Hev as ->.
    auto.
  - exfalso. rewrite app_comm_cons, app_assoc in Htr.
    apply app_inj_tail in Htr as [Ht _].
    assert (In ev t0) by (rewrite Ht; apply in_or_app; right; now left).
    rewrite (Hnf ev) in Hev; [discriminate|assumption].
Qed.

Lemma C4_engine_failure_aborts_run_witness :
  let r := run "" sample_batch engine_fails_second ["batch"] ["out"] default_params in
  let msg := "readers.las: Unable to open stream" in
  fst r = (firstn 4 (fst r) ++
           [Validate (pipeline_json "" ["batch"; "b.laz"] ["out"; "b_color.laz"]
                        default_params) (Some msg)])%list /\
  [] = ([] : list event) /\ snd r = Err (RuntimeError msg) /\
  tasks_of (fst r) = firstn 2 (dir_tasks sample_batch ["batch"] ["out"]) /\
  dir_tasks sample_batch ["batch"] ["out"] =
    [(["batch"; "a.las"], ["out"; "a_color.las"]);
     (["batch"; "b.laz"], ["out"; "b_color.laz"]);
     (["batch"; "c.las"], ["out"; "c_color.las"])].
Proof.
  intros r msg.
  assert (H : fst r = (firstn 4 (fst r) ++
           [Validate (pipeline_json "" ["batch"; "b.laz"] ["out"; "b_color.laz"]
                        default_params) (Some msg)])%list) by (vm_compute; reflexivity).
  destruct (C4_engine_failure_aborts_run "" sample_batch engine_fails_second ["batch"] ["out"]
              default_params _ _ _ msg H eq_refl) as (H1 & H2 & _).
  split; [exact H|]. split; [exact H1|]. split; [exact H2|].
  split; vm_compute; reflexivity.
Defined.

(** ** Task discovery *)

(** C6: with a directory input, an output directory and an engine that
    never fails, the run completes and the inputs of its tasks are exactly
    the directory's entries whose suffix is [.las] or [.laz]
    (case-sensitive, not recursive), in listing order; every other entry
    is skipped. *)
Theorem C6_dir_input_tasks_are_las_entries d F E i o p :
  is_dir F i = true -> is_dir F o = true ->
  (forall t s, eng_validate E t s = None /\ eng_execute E t s = None) ->
  snd (run d F E i o p) = Ok tt /\
  map fst (tasks_of (fst (run d F E i o p))) = filter is_las (iterdir F i).
Proof.
  intros Hi Ho Hok. unfold run. rewrite process_files_dir by exact Hi.
  destruct (loop_all d F E o p (iterdir F i) [] Ho Hok) as (ev & -> & Ht).
  simpl. split; [reflexivity|].
  rewrite Ht, map_map. simpl. apply map_id.
Qed.

Lemma C6_dir_input_tasks_are_las_entries_witness :
  snd (run "" sample_fs engine_ok ["data"] ["out"] default_params) = Ok tt /\
  map fst (tasks_of (fst (run "" sample_fs engine_ok ["data"] ["out"] default_params)))
  = [["data"; "a.las"]; ["data"; "b.laz"]].
Proof.
  destruct (C6_dir_input_tasks_are_las_entries "" sample_fs engine_ok ["data"] ["out"]
              default_params eq_refl eq_refl (fun _ _ => conj eq_refl eq_refl))
    as [H1 H2].
  split; [exact H1|]. rewrite H2. reflexivity.
Defined.

(** C7: a single-file input whose output path has a [.las] / [.laz]
    suffix gives the one task [input -> output path], verbatim. *)
Theorem C7_single_file_las_output_verbatim d F E i o p :
  is_dir F i = false -> is_las o = true ->
  tasks_of (fst (run d F E i o p)) = [(i, o)].
Proof.
  intros Hi Hl. rewrite single_file_tasks by exact Hi. now rewrite Hl.
Qed.

Lemma C7_single_file_las_output_verbatim_witness :
  tasks_of (fst (run "" sample_fs engine_ok ["a.laz"] ["b.las"] default_params))
  = [(["a.laz"], ["b.las"])].
Proof. apply C7_single_file_las_output_verbatim; reflexivity. Defined.

(** C8 (counterexample): [out.las] is an existing directory; the single
    input [scan.laz] is written to [out.las] itself, not to
    [out.las/scan_color.laz]. *)
Lemma C8_derived_name_counterexample :
  let F := [(["out.las"], Dir)] in
  is_dir F ["scan.laz"] = false /\ is_dir F ["out.las"] = true /\
  tasks_of (fst (run "" F engine_ok ["scan.laz"] ["out.las"] default_params))
    = [(["scan.laz"], ["out.las"])] /\
  join_path ["out.las"] (color_name ["scan.laz"]) = ["out.las"; "scan_color.laz"].
Proof. vm_compute. repeat split. Qed.

(** C8 (amended): every task of directory-input mode, and the task of a
    single-file input whose output path has no [.las] / [.laz] suffix and
    is an existing directory, writes to [output/<stem>_color<suffix>] of
    its input file. *)
Theorem C8_derived_output_name d F E i o p :
  (is_dir F i = true -> forall f o', In (f, o') (tasks_of (fst (run d F E i o p))) ->
     o' = join_path o (stem f ++ "_color" ++ suffix f)) /\
  (is_dir F i = false -> is_las o = false -> is_dir F o = true ->
     tasks_of (fst (run d F E i o p)) = [(i, join_path o (stem i ++ "_color" ++ suffix i))]).
Proof.
  split.
  - intros Hi f o' Hin. apply (dir_tasks_in d F E i o p f o' Hi Hin).
  - intros Hi Hl Ho. rewrite single_file_tasks by exact Hi. now rewrite Hl, Ho.
Qed.

Lemma C8_derived_output_name_witness :
  tasks_of (fst (run "" sample_fs engine_ok ["scan.laz"] ["out"] default_params))
  = [(["scan.laz"], ["out"; "scan_color.laz"])].
Proof.
  rewrite (proj2 (C8_derived_output_name "" sample_fs engine_ok ["scan.laz"] ["out"]
                    default_params) eq_refl eq_refl eq_refl).
  reflexivity.
Defined.

(** ** The pipeline text *)

(** C3 (failing inputs): with the default parameters and the WMS layer
    name [Actueel], double quote, [ortho25] ([layer_quote]), the pipeline text is not JSON at all: the
    quote, escaped once by [json.dumps] and once by the [replace], ends
    the [pdalargs] string of the outer document early.  With the layer
    name [luchtfoto\beelden] (a backslash, then [b]) the text is JSON, but
    the bundle read back from it has the layer [luchtfoto], a backspace
    and [eelden]: the backslash is unescaped twice. *)
Theorem C3_bundle_roundtrip_fails :
  let i := ["/"; "data"; "a.laz"] in
  let o := ["/"; "out"; "a_color.laz"] in
  json_loads (pipeline_json sample_dir i o (with_layer layer_quote)) = None /\
  (exists t, json_loads (pipeline_json sample_dir i o (with_layer layer_backslash)) = Some t) /\
  embedded_bundle (pipeline_json sample_dir i o (with_layer layer_backslash)) =
    Some (bundle_json (with_layer ("luchtfoto" ++ ch (ascii_of_nat 8) ++ "eelden"))) /\
  embedded_bundle (pipeline_json sample_dir i o (with_layer layer_backslash)) <>
    Some (bundle_json (with_layer layer_backslash)).
Proof.
  intros i o. split; [|split; [|split]].
  - vm_compute. reflexivity.
  - eexists. vm_compute. reflexivity.
  - vm_compute. reflexivity.
  - vm_compute. discriminate.
Qed.

(** C5 (counterexample): the input and output paths are put into the
    pipeline text unescaped.  An input file named [a], double quote,
    [b.laz] makes the text
    invalid JSON, so there is no three-stage pipeline; an input file
    [a\tb.laz] (a backslash, then [t]) gives a reader whose [filename] has
    a tab where the path has the backslash and the [t]. *)
Lemma C5_three_stages_counterexample :
  let o := ["/"; "out"; "x.laz"] in
  json_loads (pipeline_json sample_dir ["/"; "data"; "a" ++ q ++ "b.laz"] o default_params)
    = None /\
  json_loads (pipeline_json sample_dir ["/"; "data"; "a" ++ ch bs ++ "tb.laz"] o default_params)
    = Some (stages_json ("/data/a" ++ ch (ascii_of_nat 9) ++ "b.laz") sample_dir
              (raw_dumps (pdalargs default_params)) "EPSG:28992" "/out/x.laz") /\
  as_posix ["/"; "data"; "a" ++ ch bs ++ "tb.laz"] <> "/data/a" ++ ch (ascii_of_nat 9) ++ "b.laz".
Proof.
  intros o. split; [|split].
  - vm_compute. reflexivity.
  - vm_compute. reflexivity.
  - vm_compute. discriminate.
Qed.

(** C5 (amended): when the input and output paths, the package directory
    and the string parameters hold no quote, backslash or control
    character, and the two numbers are written as JSON numbers, the text a
    task hands to the engine reads as exactly three stages in order: a
    [readers.las] on the input path, a [filters.python] running
    [las_colorize] of [<directory>/pdal_colorize.py] whose [pdalargs]
    string reads as the caller's eight fields, and a [writers.las] with
    [a_srs] the LAS reference system on the output path.  The task calls
    [validate] on that text first and [execute] only once it validated. *)
Theorem C5_pipeline_three_stages d E i o p tr :
  plain (as_posix i) = true -> plain d = true -> plain (as_posix o) = true ->
  params_safe p = true ->
  let pj := pipeline_json d i o p in
  json_loads pj =
    Some (stages_json (as_posix i) d (raw_dumps (pdalargs p)) (las_srs p) (as_posix o)) /\
  json_loads (raw_dumps (pdalargs p)) = Some (bundle_json p) /\
  exists v rest r,
    run_pdal d E i o p tr = ((tr ++ RunPdal i o :: Validate pj v :: rest)%list, r) /\
    ((exists m, v = Some m /\ rest = [] /\ r = Err (RuntimeError m)) \/
     (v = None /\ exists x, rest = [Execute pj x] /\
        r = match x with Some m => Err (RuntimeError m) | None => Ok tt end)).
Proof.
  intros Hi Hd Ho Hp pj.
  destruct (pipeline_loads d i o p Hi Hd Ho Hp) as [Hl _].
  split; [exact Hl|]. split; [exact (inner_bundle p Hp)|].
  apply run_pdal_shape.
Qed.

Lemma C5_pipeline_three_stages_witness :
  let i := ["/"; "data"; "a.las"] in
  let o := ["/"; "out"; "a_color.las"] in
  let pj := pipeline_json sample_dir i o default_params in
  json_loads pj =
    Some (stages_json "/data/a.las" sample_dir (raw_dumps (pdalargs default_params))
            "EPSG:28992" "/out/a_color.las") /\
  json_loads (raw_dumps (pdalargs default_params)) = Some (bundle_json default_params).
Proof.
  intros i o pj.
  destruct (C5_pipeline_three_stages sample_dir engine_ok i o default_params []
              eq_refl eq_refl eq_refl eq_refl) as [H1 [H2 _]].
  split; [exact H1 | exact H2].
Defined.

(* ================================================================== *)
(** * Further properties of the code *)

(** ** The directory loop *)

(** Directory mode with an output directory and an engine that never
    fails: the tasks are exactly the pairs [(input/n, output/x_color.e)]
    for the entries [n = x ++ e] listed directly in the input directory
    whose name has a nonempty stem [x] and the suffix [e] = [.las] or
    [.laz]. *)
Theorem dir_mode_entries d F E i o p f o' :
  is_dir F i = true -> is_dir F o = true ->
  (forall t s, eng_validate E t s = None /\ eng_execute E t s = None) ->
  In (f, o') (tasks_of (fst (run d F E i o p))) <->
  (exists k, In (f, k) F) /\
  exists n x e, f = join_path i n /\ n = x ++ e /\ x <> EmptyString /\
    (e = ".las" \/ e = ".laz") /\ o' = join_path o (x ++ "_color" ++ e).
Proof.
  intros Hi Ho Hok. unfold run. rewrite process_files_dir by exact Hi.
  destruct (loop_all d F E o p (iterdir F i) [] Ho Hok) as (ev & -> & Ht).
  simpl. rewrite Ht, in_map_iff. split.
  - intros (g & Hg & Hin). injection Hg as <- <-.
    apply filter_In in Hin as [Hin Hl].
    destruct (iterdir_child F i g Hin) as [n ->].
    apply in_iterdir in Hin as [k Hk]. split; [eauto|].
    pose proof (is_las_snoc_name i n Hl) as Hnm.
    apply is_las_name in Hl as (x & Hx & Hn).
    assert (Hne : exists e, (e = ".las" \/ e = ".laz") /\ name (i ++ [n])%list = x ++ e)
      by (destruct Hn; eauto).
    destruct Hne as (e & He & Hn').
    assert (Hnn : n = x ++ e).
    { rewrite <- Hnm. exact Hn'. }
    exists n, x, e. refine (conj eq_refl (conj Hnn (conj Hx (conj He _)))).
    unfold join_path. rewrite (color_name_las _ x e); auto.
  - intros [(k & Hk) (n & x & e & -> & -> & Hx & He & ->)]. unfold join_path in *.
    exists (join_path i (x ++ e)).
    assert (Hname : name (join_path i (x ++ e)) = x ++ e)
      by (destruct (las_name_not_root x e He); apply name_snoc; assumption).
    split.
    + unfold join_path. rewrite (color_name_las _ x e); auto.
    + apply filter_In. split; [apply in_iterdir; eauto|].
      apply is_las_name. exists x. split; [exact Hx|]. rewrite Hname.
      destruct He as [-> | ->]; auto.
Qed.

Lemma dir_mode_entries_witness :
  In (["data"; "b.laz"], ["out"; "b_color.laz"])
     (tasks_of (fst (run sample_dir sample_fs engine_ok ["data"] ["out"] default_params))) <->
  (exists k, In (["data"; "b.laz"], k) sample_fs) /\
  exists n x e, ["data"; "b.laz"] = join_path ["data"] n /\ n = x ++ e /\ x <> EmptyString /\
    (e = ".las" \/ e = ".laz") /\ ["out"; "b_color.laz"] = join_path ["out"] (x ++ "_color" ++ e).
Proof.
  apply dir_mode_entries; [reflexivity | reflexivity | intros; split; reflexivity].
Defined.

(** In directory mode, on a filesystem listing each path once, no two tasks
    write the same output path, whatever the engine does. *)
Theorem dir_mode_outputs_distinct d F E i o p :
  NoDup (map fst F) -> is_dir F i = true ->
  NoDup (map snd (tasks_of (fst (run d F E i o p)))).
Proof.
  intros Hnd Hi. unfold run. rewrite process_files_dir by exact Hi.
  destruct (loop_prefix d F E o p (iterdir F i) []) as (ev & r & k & -> & Ht).
  simpl. rewrite Ht, <- firstn_map. apply nodup_firstn.
  rewrite map_map. simpl. apply nodup_map_inj.
  - intros f g Hf Hg Heq. apply filter_In in Hf as [Hf Hlf], Hg as [Hg Hlg].
    unfold join_path in Heq. apply app_inj_tail in Heq as [_ Heq].
    pose proof (color_name_inj f g Hlf Hlg Heq) as Hn.
    destruct (iterdir_child F i f Hf) as [n ->], (iterdir_child F i g Hg) as [m ->].
    rewrite (is_las_snoc_name i n Hlf), (is_las_snoc_name i m Hlg) in Hn.
    rewrite Hn. reflexivity.
  - apply NoDup_filter, nodup_iterdir, Hnd.
Qed.

Lemma dir_mode_outputs_distinct_witness :
  NoDup (map snd (tasks_of (fst (run sample_dir sample_fs engine_ok ["data"] ["out"]
                                     default_params)))).
Proof.
  apply dir_mode_outputs_distinct; [|reflexivity].
  simpl. repeat (constructor; [simpl; intuition discriminate|]).
  constructor.
Defined.

(** ** The bundle text *)

(** [json.dumps] of any string (code points 0..255) reads back, as JSON, to
    that same string. *)
Theorem encode_str_roundtrip s : json_loads (encode_str s) = Some (JStr s).
Proof.
  unfold json_loads.
  pose proof (parse_encode_str (S (2 * String.length (encode_str s))) s EmptyString) as H.
  rewrite app_empty_str in H. rewrite H by lia. reflexivity.
Qed.

(** The [json.dumps(pdalargs)] text on its own reads back to the caller's
    eight fields, whatever characters the string parameters hold, as
    long as the two numbers are written as JSON numbers (a [str] given
    for them is fine). *)
Theorem json_dumps_bundle_roundtrip p :
  num_ok (wms_pixel_size p) = true -> num_ok (wms_max_image_size p) = true ->
  json_loads (json_dumps (pdalargs p)) = Some (bundle_json p).
Proof.
  exact (dumps_bundle_loads p).
Qed.

Lemma json_dumps_bundle_roundtrip_witness :
  json_loads (json_dumps (pdalargs (with_layer layer_quote))) =
    Some (bundle_json (with_layer layer_quote)).
Proof.
  apply json_dumps_bundle_roundtrip; reflexivity.
Defined.

(** ** Verbose output *)

(** Without [verbose], [process_files] prints nothing, and makes the same
    engine calls with the same outcome as the model without printing. *)
Theorem quiet_run_same_engine_calls d F E i o p :
  process_files_v d F E i o p false [] =
    (map Engine (fst (run d F E i o p)), snd (run d F E i o p)).
Proof.
  apply (process_files_v_run false). tauto.
Qed.

(** With [verbose], outside the bad-output error of single-file mode, the
    run makes the same engine calls with the same outcome, and prints
    exactly the two lines [Colorizing <input> ..] and [Saving at <output>.]
    right before each task. *)
Theorem verbose_run_announces_tasks d F E i o p :
  is_dir F i = true \/ is_las o = true \/ is_dir F o = true ->
  process_files_v d F E i o p true [] =
    (announce (fst (run d F E i o p)), snd (run d F E i o p)).
Proof.
  intros H. apply (process_files_v_run true). tauto.
Qed.

Lemma verbose_run_announces_tasks_witness :
  process_files_v sample_dir sample_fs engine_ok ["data"] ["out"] default_params true [] =
    (announce (fst (run sample_dir sample_fs engine_ok ["data"] ["out"] default_params)),
     snd (run sample_dir sample_fs engine_ok ["data"] ["out"] default_params)).
Proof.
  apply verbose_run_announces_tasks. left. reflexivity.
Defined.

(** With [verbose] and an output path that is neither [.las]/[.laz] nor a
    directory: a directory input raises the [ValueError] at its first
    [.las]/[.laz] entry with nothing printed (and ends normally when it has
    none), while a single input file first prints
    [Colorizing <input> ..] and then raises the [ValueError].  No engine
    call is made either way. *)
Theorem verbose_value_error_output d F E i o p :
  is_las o = false -> is_dir F o = false ->
  process_files_v d F E i o p true [] =
    if is_dir F i then
      ([], if existsb is_las (iterdir F i) then Err (ValueError msg_dir) else Ok tt)
    else ([Stdout (msg_colorizing i)], Err (ValueError msg_out)).
Proof.
  intros Hl Hd. unfold process_files_v.
  destruct (is_dir F i).
  - apply vloop_bad_output, Hd.
  - rewrite Hl, Hd. reflexivity.
Qed.

Lemma verbose_value_error_output_witness :
  process_files_v sample_dir sample_fs engine_ok ["data"] ["notes"] default_params true [] =
    ([], Err (ValueError msg_dir)) /\
  process_files_v sample_dir sample_fs engine_ok ["data"; "a.las"] ["notes"] default_params
    true [] = ([Stdout (msg_colorizing ["data"; "a.las"])], Err (ValueError msg_out)).
Proof.
  split.
  - rewrite verbose_value_error_output by reflexivity. reflexivity.
  - rewrite verbose_value_error_output by reflexivity. reflexivity.
Defined.

(** ** Path(str) *)

(** A trailing slash on a command-line path changes nothing: [Path(s + '/')]
    has the parts of [Path(s)], for [s] other than [''], ['/'] and ['//']. *)
Theorem path_trailing_slash s :
  s <> EmptyString -> s <> "/" -> s <> "//" ->
  path_of_string (s ++ "/") = path_of_string s.
Proof.
  intros H0 H1 H2. unfold path_of_string. rewrite split_slash_snoc, filter_app.
  cbn [filter String.eqb negb andb]. rewrite app_nil_r.
  set (rel := filter _ (split_slash s)). clearbody rel.
  destruct s as [|c0 [|c1 [|c2 s3]]]; [congruence| | |]; cbn.
  - destruct (Ascii.eqb_spec c0 "/"%char) as [->|]; [congruence|]. reflexivity.
  - destruct (Ascii.eqb_spec c0 "/"%char) as [->|]; [|reflexivity].
    destruct (Ascii.eqb_spec c1 "/"%char) as [->|]; [congruence|]. reflexivity.
  - reflexivity.
Qed.

Lemma path_trailing_slash_witness :
  path_of_string ("data/out" ++ "/") = path_of_string "data/out".
Proof.
  apply path_trailing_slash; discriminate.
Defined.

(** ** main *)

(** With only [-i] and [-o] given, [main] prints nothing and makes the
    engine calls of [process_files] on [Path(input)] and [Path(output)]
    with the documented defaults ([EPSG:28992], the PDOK aerial-photo WMS,
    layer [Actueel_ortho25], [image/png], [1.3.0], [0.25], [1000]). *)
Theorem main_defaults_run d F E a si so :
  Args.input a = Some si -> Args.output a = Some so ->
  Args.las_srs a = None -> Args.wms_url a = None -> Args.wms_layer a = None ->
  Args.wms_srs a = None -> Args.wms_format a = None -> Args.wms_version a = None ->
  Args.wms_pixel_size a = None -> Args.wms_max_image_size a = None ->
  Args.verbose a = false ->
  main d F E a =
    (map Engine (fst (run d F E (path_of_string si) (path_of_string so) default_params)),
     Returned (snd (run d F E (path_of_string si) (path_of_string so) default_params))).
Proof.
  intros H1 H2 H3 H4 H5 H6 H7 H8 H9 H10 H11.
  unfold main, argument_parser.
  rewrite H1, H2, H3, H4, H5, H6, H7, H8, H9, H10, H11. cbn [Args.ns_input Args.ns_output Args.ns_verbose].
  change (main_params _) with default_params.
  rewrite (process_files_v_run false) by tauto. reflexivity.
Qed.

Lemma main_defaults_run_witness :
  main sample_dir sample_fs engine_ok
    {| Args.input := Some "data"; Args.output := Some "out"; Args.las_srs := None;
       Args.wms_url := None; Args.wms_layer := None; Args.wms_srs := None;
       Args.wms_format := None; Args.wms_version := None;
       Args.wms_pixel_size := None; Args.wms_max_image_size := None;
       Args.verbose := false |} =
    (map Engine (fst (run sample_dir sample_fs engine_ok ["data"] ["out"] default_params)),
     Returned (snd (run sample_dir sample_fs engine_ok ["data"] ["out"] default_params))).
Proof.
  apply (main_defaults_run _ _ _ _ "data" "out"); reflexivity.
Defined.

(** For any command line [argument_parser] accepts, the [json.dumps] of the
    bundle reads back as JSON; [wms_pixel_size] and [wms_max_image_size]
    are JSON strings when given with [-p] / [-m], and the numbers [0.25]
    and [1000] when not. *)
Theorem main_bundle_value_types a ns :
  argument_parser a = Parsed ns ->
  exists fields,
    json_loads (json_dumps (pdalargs (main_params ns))) = Some (JObj fields) /\
    assoc "wms_pixel_size" fields =
      Some (match Args.wms_pixel_size a with Some s => JStr s | None => JNum "0.25" end) /\
    assoc "wms_max_image_size" fields =
      Some (match Args.wms_max_image_size a with Some s => JStr s | None => JNum "1000" end).
Proof.
  intros H. unfold argument_parser in H.
  destruct (Args.input a), (Args.output a); try discriminate.
  injection H as <-.
  rewrite json_dumps_bundle_roundtrip.
  - eexists. split; [reflexivity|]. simpl.
    destruct (Args.wms_pixel_size a), (Args.wms_max_image_size a); split; reflexivity.
  - simpl. destruct (Args.wms_pixel_size a); reflexivity.
  - simpl. destruct (Args.wms_max_image_size a); reflexivity.
Qed.

Lemma main_bundle_value_types_witness :
  exists ns, argument_parser sample_args_p = Parsed ns /\
  exists fields,
    json_loads (json_dumps (pdalargs (main_params ns))) = Some (JObj fields) /\
    assoc "wms_pixel_size" fields = Some (JStr "0.5") /\
    assoc "wms_max_image_size" fields = Some (JNum "1000").
Proof.
  eexists. split; [reflexivity|].
  apply (main_bundle_value_types sample_args_p). reflexivity.
Defined.
